(** * Voice-chat session pipeline: shallow embedding and verified properties

    The development follows the Python sources:
    - [Whisper]  embeds [src/whisper.py]: push-to-talk capture
      ([record_audio], [stop_recording]) and the passive voice-activity loop
      ([passive_record_and_transcribe]);
    - [Chat]     embeds [src/chat.py]: [ChatState] and the methods of
      [ChatManager];
    - [ChatUI]   embeds the key and mouse dispatch of [src/chat_ui.py], and
      [StartChat] the event loop of [start_chat];
    - [Curses]   embeds the header, status line, chat window and menu keys
      of [src/curses.py];
    - [Llama]    embeds [LlamaChat] of [src/llama.py];
    - [Config]   embeds the colours and path checks of [src/config.py] and
      [init_colors] of [main.py].

    External collaborators (language model, speech synthesis, the audio
    host) are oracles: every call site receives the outcome the collaborator
    produced, so every theorem quantifies over all behaviours of the engines. *)

From Stdlib Require Import ZArith List Bool Lia PrimFloat FloatOps Ascii.
From stdpp Require Import base strings gmap list.

Set Warnings "-inexact-float".
Local Open Scope Z_scope.

(** ** Python values shared by the modules *)

(** The result of a call that may raise: [Raised msg] carries [str(e)]. *)
Inductive outcome (A : Type) : Type :=
| Returned (a : A)
| Raised (msg : string).
Arguments Returned {A} a.
Arguments Raised {A} msg.

(** Values stored in the [selected_settings] dict: voice and model names are
    strings, the blend ratio is an [int]. *)
Inductive pyval : Type :=
| PStr (s : string)
| PInt (z : Z).

#[global] Instance pyval_eq_dec : EqDecision pyval.
Proof. solve_decision. Defined.

(** A block of PCM samples.  Python floats are binary64, which is what
    [PrimFloat.float] is; the float32 samples of numpy embed exactly. *)
Definition pcm : Type := list float.

(** Python truthiness of a [str] and of an [Optional[str]]. *)
Definition truthy (s : string) : bool :=
  match s with
  | EmptyString => false
  | String _ _ => true
  end.

Definition truthy_opt (o : option string) : bool :=
  match o with
  | None => false
  | Some s => truthy s
  end.

(** ** [src/whisper.py] *)
Module Whisper.

(** *** The audio host *)

(** What the process holds of PortAudio: [PyAudio()] instances not yet
    terminated, streams opened and not yet closed, and streams started and
    not yet stopped. *)
Record host : Type := Host {
  pa_instances : nat;
  streams_open : nat;
  streams_running : nat
}.

Definition no_audio : host := Host 0 0 0.

(** Opaque objects handed back by [record_audio]. *)
Inductive pa_stream : Type := PaStream.
Inductive pa_instance : Type := PaInstance.

Definition SAMPLE_RATE : Z := 16000.

(** [record_audio(sample_rate=16000, channels=1)].  [opens] tells whether
    [pyaudio.PyAudio()] and [p.open(..., start=False)] both succeeded; on an
    exception the instance, if created, is terminated again and four [None]
    are returned. *)
Definition record_audio (opens : bool) (h : host)
  : (option pa_stream * option (list pcm) * option pa_instance * option Z) * host :=
  if opens then
    ((Some PaStream, Some [], Some PaInstance, Some SAMPLE_RATE),
     Host (S (pa_instances h)) (S (streams_open h)) (streams_running h))
  else
    ((None, None, None, None), h).

(** [stream.start_stream()]. *)
Definition start_stream (h : host) : host :=
  Host (pa_instances h) (streams_open h) (S (streams_running h)).

(** Which of the three teardown calls of [stop_recording] raises, if any. *)
Inductive teardown : Type :=
| Clean
| StopRaises
| CloseRaises
| TerminateRaises.

(** The host after [stream.stop_stream(); stream.close(); p.terminate()],
    as far as the calls got. *)
Definition release (t : teardown) (h : host) : host :=
  match t with
  | StopRaises => h
  | CloseRaises =>
      Host (pa_instances h) (streams_open h) (Nat.pred (streams_running h))
  | TerminateRaises =>
      Host (pa_instances h) (Nat.pred (streams_open h)) (Nat.pred (streams_running h))
  | Clean =>
      Host (Nat.pred (pa_instances h)) (Nat.pred (streams_open h))
           (Nat.pred (streams_running h))
  end.

(** [np.maximum]: a NaN operand wins. *)
Definition np_maximum (a b : float) : float :=
  if PrimFloat.is_nan a then a
  else if PrimFloat.is_nan b then b
  else if PrimFloat.ltb a b then b else a.

(** [np.max(np.abs(a))]; on an empty array numpy raises [ValueError]. *)
Definition np_max_abs (a : pcm) : outcome float :=
  match a with
  | [] => Raised "zero-size array to reduction operation maximum which has no identity"
  | x :: xs => Returned (fold_left np_maximum (map PrimFloat.abs xs) (PrimFloat.abs x))
  end.

(** *** [float32] arithmetic

    The samples are [float32] values ([np.frombuffer(..., dtype=np.float32)]),
    kept here as the binary64 numbers with the same value.  Comparisons,
    [np.abs] and [np.maximum] are exact on them; a quotient is rounded to
    binary32. *)

Definition two52 : float := 4503599627370496%float.

(** Nearest integer, ties to even, of a [v] with [0 <= v < 2^52]. *)
Definition rint (v : float) : float :=
  PrimFloat.sub (PrimFloat.add v two52) two52.

(** The binary32 number nearest to [x], ties to even: 24 significant bits
    down to the exponent of the smallest normal number, the grid of
    [2^-149] below it, and infinity from [2^128] on. *)
Definition float32 (x : float) : float :=
  if PrimFloat.is_nan x || PrimFloat.is_infinity x || PrimFloat.is_zero x then x
  else
    let a := PrimFloat.abs x in
    let e := snd (Z.frexp a) in
    let q := Z.max e (-125) - 24 in
    let r := Z.ldexp (rint (Z.ldexp a (- q))) q in
    let r := if PrimFloat.leb (Z.ldexp 1 128) r then PrimFloat.infinity else r in
    if PrimFloat.get_sign x then PrimFloat.opp r else r.

(** [x / y] in [float32]: the binary32 quotient is the binary64 quotient
    rounded to binary32 (53 >= 2 * 24 + 2 bits, so rounding twice is rounding
    once). *)
Definition np_divide (x y : float) : float := float32 (PrimFloat.div x y).

(** The body of the [try] of [stop_recording] after the teardown calls:
    join the frames and bring the samples into [-1, 1]. *)
Definition collect (frames : list pcm) : outcome (option pcm) :=
  match frames with
  | [] => Returned None
  | _ :: _ =>
      let audio_data := concat frames in
      match np_max_abs audio_data with
      | Raised e => Raised e
      | Returned peak =>
          if PrimFloat.ltb 1 peak
          then Returned (Some (map (fun x => np_divide x peak) audio_data))
          else Returned (Some audio_data)
      end
  end.

(** [stop_recording(stream, frames, p)]: every exception inside is caught
    and turned into [None]. *)
Definition stop_recording (t : teardown)
    (stream : option pa_stream) (frames : option (list pcm))
    (p : option pa_instance) (h : host) : option pcm * host :=
  match stream, p with
  | Some _, Some _ =>
      match t with
      | Clean =>
          match collect (default [] frames) with
          | Returned r => (r, release Clean h)
          | Raised _ => (None, release Clean h)
          end
      | _ => (None, release t h)
      end
  | _, _ => (None, h)
  end.

(** *** Passive voice-activity detection *)

Definition silence_threshold : float := 0.01%float.
Definition silence_duration_required : float := 3.0%float.
Definition check_interval : float := 0.5%float.

(** [int(SAMPLE_RATE * check_interval)]. *)
Definition window_samples : Z := 8000.

(** What one wake-up of the polling loop sees after [time.sleep]:
    [len(audio_data)] and the RMS of the last [window_samples] samples
    (only read when the buffer holds that many). *)
Record poll : Type := Poll {
  buffered : Z;
  rms : float
}.

Definition window_full (p : poll) : bool := window_samples <=? buffered p.

(** First loop: [while not initial_audio_detected].  Returns the polls that
    remain once onset was seen, or [None] while still waiting. *)
Fixpoint await_onset (ps : list poll) : option (list poll) :=
  match ps with
  | [] => None
  | p :: ps' =>
      if window_full p && PrimFloat.ltb silence_threshold (rms p)
      then Some ps'
      else await_onset ps'
  end.

(** One iteration of the second loop on [accumulated_silence_time]. *)
Definition silence_step (acc : float) (p : poll) : float :=
  if window_full p then
    if PrimFloat.ltb (rms p) silence_threshold
    then PrimFloat.add acc check_interval
    else 0.3%float
  else acc.

(** Second loop: [while True: ... if acc >= required: break].  Returns the
    number of polls consumed when the loop breaks, [None] while it runs. *)
Fixpoint await_silence (acc : float) (ps : list poll) : option nat :=
  match ps with
  | [] => None
  | p :: ps' =>
      let acc' := silence_step acc p in
      if PrimFloat.leb silence_duration_required acc'
      then Some 1%nat
      else option_map S (await_silence acc' ps')
  end.

(** Both loops of [passive_record_and_transcribe]: the number of polls of
    the second loop after which the buffer goes to [transcribe]. *)
Definition passive_capture (ps : list poll) : option nat :=
  match await_onset ps with
  | None => None
  | Some rest => await_silence 0%float rest
  end.

(** The loop as the specification words it: silence is counted in whole
    windows, a window at or above the threshold puts the count back to zero,
    and the loop ends when [need] windows in a row were below it. *)
Fixpoint spec_await_silence (need run : nat) (ps : list poll) : option nat :=
  match ps with
  | [] => None
  | p :: ps' =>
      let run' := if PrimFloat.ltb (rms p) silence_threshold then S run else 0%nat in
      if (need <=? run')%nat
      then Some 1%nat
      else option_map S (spec_await_silence need run' ps')
  end.

(** 3.0 s of silence in windows of 0.5 s. *)
Definition windows_required : nat := 6.

End Whisper.

(** ** [src/chat.py] *)
Module Chat.

(** *** [ChatState] *)

(** Entries of [chat_history] are the display strings themselves: a user
    turn is ["You: " + text], an assistant turn ["Assistant: " + text]. *)
Record ChatState : Type := mkChatState {
  chat_history : list string;
  scroll_offset : Z;
  recording_stream : option Whisper.pa_stream;
  recording_frames : option (list pcm);
  recording_pyaudio : option Whisper.pa_instance;
  last_user_message : option string;
  processing : bool;
  is_ptt_mode : bool;
  sample_rate : option Z
}.

Definition user_turn (text : string) : string := "You: " +:+ text.
Definition assistant_turn (text : string) : string := "Assistant: " +:+ text.

Definition set_chat_history (h : list string) (s : ChatState) : ChatState :=
  mkChatState h (scroll_offset s) (recording_stream s) (recording_frames s)
    (recording_pyaudio s) (last_user_message s) (processing s) (is_ptt_mode s)
    (sample_rate s).

Definition set_scroll_offset (n : Z) (s : ChatState) : ChatState :=
  mkChatState (chat_history s) n (recording_stream s) (recording_frames s)
    (recording_pyaudio s) (last_user_message s) (processing s) (is_ptt_mode s)
    (sample_rate s).

Definition set_recording (stream : option Whisper.pa_stream)
    (frames : option (list pcm)) (p : option Whisper.pa_instance)
    (rate : option Z) (s : ChatState) : ChatState :=
  mkChatState (chat_history s) (scroll_offset s) stream frames p
    (last_user_message s) (processing s) (is_ptt_mode s) rate.

Definition set_last_user_message (m : option string) (s : ChatState) : ChatState :=
  mkChatState (chat_history s) (scroll_offset s) (recording_stream s)
    (recording_frames s) (recording_pyaudio s) m (processing s) (is_ptt_mode s)
    (sample_rate s).

Definition set_processing (b : bool) (s : ChatState) : ChatState :=
  mkChatState (chat_history s) (scroll_offset s) (recording_stream s)
    (recording_frames s) (recording_pyaudio s) (last_user_message s) b
    (is_ptt_mode s) (sample_rate s).

Definition set_is_ptt_mode (b : bool) (s : ChatState) : ChatState :=
  mkChatState (chat_history s) (scroll_offset s) (recording_stream s)
    (recording_frames s) (recording_pyaudio s) (last_user_message s)
    (processing s) b (sample_rate s).

(** *** Effects *)

(** What the manager does to the outside, in the order it happens. *)
Inductive event : Type :=
| Status (message : string)
    (** [self.status_callback(message)] *)
| ChatShown (history : list string) (offset : Z)
    (** [self.on_chat_updated()]: the listener re-reads both fields *)
| LlmChat (user_message : string)
    (** [self.llm.chat(user_message)] *)
| TtsCreate (text : string) (voice : option pyval)
    (** [self.tts.create(text, voice, speed=0.9, lang="en-us")] *)
| TtsBlend (text : string) (voice1 voice2 : option pyval) (percent : Z)
    (** [self.tts.create_with_blend(..., blend_ratio=percent/100, ...)] *)
| PlayAudio (audio_data : pcm) (rate : Z)
    (** [whisper.play_audio(audio_data, sample_rate)] *)
| Sleep (seconds : Z).
    (** [time.sleep(seconds)] *)

(** The manager together with the world it acts on.  [on_chat_updated]
    says whether the callback reference is set; [trace] is chronological. *)
Record ChatManager : Type := mkChatManager {
  settings : gmap string pyval;
  on_chat_updated : bool;
  state : ChatState;
  audio : Whisper.host;
  trace : list event
}.

(** [ChatManager.__init__]. *)
Definition init (selected_settings : gmap string pyval) : ChatManager :=
  mkChatManager selected_settings false
    (mkChatState [] 0 None None None None false true None)
    Whisper.no_audio [].

(** [chat_manager.on_chat_updated = lambda: ...] in [start_chat]. *)
Definition listen (m : ChatManager) : ChatManager :=
  mkChatManager (settings m) true (state m) (audio m) (trace m).

(** Methods run in a state monad over the manager; an exception leaves the
    mutations made so far in place. *)
Definition M (A : Type) : Type := ChatManager -> outcome A * ChatManager.

Definition ret {A} (a : A) : M A := fun m => (Returned a, m).

Definition bind {A B} (c : M A) (k : A -> M B) : M B :=
  fun m =>
    match c m with
    | (Returned a, m') => k a m'
    | (Raised e, m') => (Raised e, m')
    end.

Definition raise {A} (e : string) : M A := fun m => (Raised e, m).

(** [try: body except Exception as e: handler(str(e))]. *)
Definition try_except {A} (body : M A) (handler : string -> M A) : M A :=
  fun m =>
    match body m with
    | (Returned a, m') => (Returned a, m')
    | (Raised e, m') => handler e m'
    end.

Notation "x <- c ;; k" := (bind c (fun x => k))
  (at level 100, c at next level, right associativity).
Notation "c ;; k" := (bind c (fun _ => k))
  (at level 100, right associativity).

Definition get_state : M ChatState := fun m => (Returned (state m), m).

Definition update (f : ChatState -> ChatState) : M unit :=
  fun m =>
    (Returned tt,
     mkChatManager (settings m) (on_chat_updated m) (f (state m)) (audio m) (trace m)).

Definition emit (e : event) : M unit :=
  fun m =>
    (Returned tt,
     mkChatManager (settings m) (on_chat_updated m) (state m) (audio m) (trace m ++ [e])).

Definition setting (key : string) : M (option pyval) :=
  fun m => (Returned (settings m !! key), m).

(** Run a function of [src/whisper.py] on the audio host. *)
Definition on_host {A} (f : Whisper.host -> A * Whisper.host) : M A :=
  fun m =>
    let '(a, h) := f (audio m) in
    (Returned a, mkChatManager (settings m) (on_chat_updated m) (state m) h (trace m)).

Definition status_callback (message : string) : M unit := emit (Status message).

(** [if self.on_chat_updated: self.on_chat_updated()]. *)
Definition notify_chat_updated : M unit :=
  fun m =>
    if on_chat_updated m
    then emit (ChatShown (chat_history (state m)) (scroll_offset (state m))) m
    else (Returned tt, m).

(** *** The engines as seen from one call of [process_voice_input] *)

(** [synth] is the result of a synthesis call: [None] stands for the pair
    [(None, None)].  The two [stop_*] fields say whether [stop_processing]
    ran (from a callback) while the generation, respectively the synthesis
    stage was in flight; the method re-reads [self.state.processing] after
    each stage for that reason.  In [start_chat] both are [false]. *)
Definition synth : Type := option (pcm * Z).

Record engines : Type := mkEngines {
  llm_chat : string -> outcome string;
  tts_create : string -> option pyval -> outcome synth;
  tts_create_with_blend : string -> option pyval -> option pyval -> Z -> outcome synth;
  stop_during_generation : bool;
  stop_during_synthesis : bool
}.

Definition call {A} (e : event) (r : outcome A) : M A :=
  fun m =>
    match emit e m with
    | (_, m') => (r, m')
    end.

(** *** Methods of [ChatManager] *)

(** [stop_processing]. *)
Definition stop_processing : M unit :=
  st <- get_state ;;
  if processing st then
    update (set_processing false) ;;
    status_callback "Processing stopped!"
  else ret tt.

Definition interrupted (stop : bool) : M unit :=
  if stop then stop_processing else ret tt.

Definition blend_voices : pyval := PStr "[ Blend Voices ]".

(** Lines 112-131: resolve the voice settings and call the TTS engine. *)
Definition synthesize (e : engines) (assistant_message : string) : M synth :=
  selected_voice <- setting "TTS Voice" ;;
  if decide (selected_voice = Some blend_voices) then
    voice1 <- setting "Voice 1" ;;
    voice2 <- setting "Voice 2" ;;
    ratio <- setting "Blend Ratio" ;;
    match default (PInt 50) ratio with
    | PInt percent =>
        call (TtsBlend assistant_message voice1 voice2 percent)
             (tts_create_with_blend e assistant_message voice1 voice2 percent)
    | PStr _ => raise "unsupported operand type(s) for /: 'str' and 'int'"
    end
  else
    call (TtsCreate assistant_message selected_voice)
         (tts_create e assistant_message selected_voice).

(** Lines 94-99: the turn is accepted. *)
Definition accept_turn (user_message : string) : M unit :=
  update (set_last_user_message (Some user_message)) ;;
  st <- get_state ;;
  update (set_chat_history (chat_history st ++ [user_turn user_message])) ;;
  notify_chat_updated ;;
  update (set_processing true) ;;
  status_callback "Thinking...".

(** Lines 101-144: generation, synthesis and playback under one [try]. *)
Definition respond (e : engines) (user_message : string) : M bool :=
  try_except
    (assistant_message <- call (LlmChat user_message) (llm_chat e user_message) ;;
     st <- get_state ;;
     update (set_chat_history (chat_history st ++ [assistant_turn assistant_message])) ;;
     notify_chat_updated ;;
     interrupted (stop_during_generation e) ;;
     st <- get_state ;;
     (if processing st then
        status_callback "Synthesizing speech..." ;;
        r <- synthesize e assistant_message ;;
        interrupted (stop_during_synthesis e) ;;
        st <- get_state ;;
        match r with
        | Some (audio_data, rate) =>
            if processing st then
              status_callback "Playing response..." ;;
              emit (PlayAudio audio_data rate)
            else ret tt
        | None => ret tt
        end
      else ret tt) ;;
     update (set_processing false) ;;
     status_callback "Ready to chat!" ;;
     ret true)
    (fun msg =>
       status_callback ("Error processing input: " +:+ msg) ;;
       update (set_processing false) ;;
       ret false).

(** [process_voice_input(user_message)]. *)
Definition process_voice_input (e : engines) (user_message : string) : M bool :=
  if negb (truthy user_message) then ret false
  else accept_turn user_message ;; respond e user_message.

(** [start_recording]. *)
Definition start_recording (opens : bool) : M bool :=
  st <- get_state ;;
  if bool_decide (recording_stream st <> None) || processing st then ret false
  else
    r <- on_host (Whisper.record_audio opens) ;;
    let '(stream, frames, pyaudio, rate) := r in
    match stream with
    | None =>
        status_callback "Error: Could not start recording" ;;
        emit (Sleep 2) ;;
        ret false
    | Some _ =>
        update (set_recording stream frames pyaudio rate) ;;
        on_host (fun h => (tt, Whisper.start_stream h)) ;;
        ret true
    end.

(** The stream callback [frames.append(in_data)]: the list it appends to
    is the one [recording_frames] refers to. *)
Definition deliver (in_data : pcm) : M unit :=
  update (fun s =>
    match recording_frames s with
    | Some frames =>
        set_recording (recording_stream s) (Some (frames ++ [in_data]))
          (recording_pyaudio s) (sample_rate s) s
    | None => s
    end).

(** [stop_recording]. *)
Definition stop_recording (t : Whisper.teardown) : M (option (pcm * option Z)) :=
  st <- get_state ;;
  match recording_stream st with
  | None => ret None
  | Some _ =>
      status_callback "Processing audio..." ;;
      audio_data <- on_host (Whisper.stop_recording t (recording_stream st)
                               (recording_frames st) (recording_pyaudio st)) ;;
      let rate := sample_rate st in
      update (set_recording None None None None) ;;
      match audio_data with
      | Some a => if (0 <? Z.of_nat (length a)) then ret (Some (a, rate)) else ret None
      | None => ret None
      end
  end.

(** [clear_history]. *)
Definition clear_history : M unit :=
  update (set_chat_history []) ;;
  update (set_scroll_offset 0) ;;
  status_callback "Chat history cleared!" ;;
  notify_chat_updated.

(** [toggle_ptt_mode]. *)
Definition toggle_ptt_mode : M unit :=
  st <- get_state ;;
  update (set_is_ptt_mode (negb (is_ptt_mode st))) ;;
  st <- get_state ;;
  let mode_name := if is_ptt_mode st then "Push-to-Talk" else "Passive" in
  status_callback ("Switched to " +:+ mode_name +:+ " mode").

(** [chat_history[:-2] if len(chat_history) >= 2 else []]. *)
Definition drop_last_exchange (h : list string) : list string :=
  if (2 <=? length h)%nat then take (length h - 2) h else [].

(** [redo_last_message]. *)
Definition redo_last_message (e : engines) : M bool :=
  st <- get_state ;;
  if negb (truthy_opt (last_user_message st)) || processing st then ret false
  else
    update (set_chat_history (drop_last_exchange (chat_history st))) ;;
    notify_chat_updated ;;
    st <- get_state ;;
    process_voice_input e (default "" (last_user_message st)).

(** [cleanup]: the stream is torn down, the state fields are left as they are. *)
Definition cleanup (t : Whisper.teardown) : M unit :=
  st <- get_state ;;
  match recording_stream st with
  | Some _ =>
      on_host (Whisper.stop_recording t (recording_stream st)
                 (recording_frames st) (recording_pyaudio st)) ;;
      ret tt
  | None => ret tt
  end.

(** [transcribe(audio_data, sample_rate)]: [heard] is what
    [whisper.transcribe] returns for the buffer. *)
Definition transcribe (heard : string) : M string :=
  status_callback "Transcribing speech..." ;;
  ret heard.

(** *** [initialize_models] *)

(** What the three loaders called by [initialize_models] do: the
    constructors [LlamaChat(...)] and [Kokoro(...)] and
    [whisper.load_model("base")] each return or raise. *)
Record loading : Type := mkLoading {
  llama : outcome unit;
  kokoro : outcome unit;
  load_model : outcome unit
}.

Definition outside {A} (r : outcome A) : M A := fun m => (r, m).

(** [Path(...) / x]: a [TypeError] unless [x] is a text. *)
Definition path_join (x : option pyval) : M string :=
  match x with
  | Some (PStr name) => ret name
  | Some (PInt _) => raise "unsupported operand type(s) for /: 'PosixPath' and 'int'"
  | None => raise "unsupported operand type(s) for /: 'PosixPath' and 'NoneType'"
  end.

Definition initialize_models (w : loading) : M bool :=
  try_except
    (selected_llm <- setting "LLM Model" ;;
     selected_prompt <- setting "System Prompt" ;;
     path_join (Some (default (PStr "template.xml") selected_prompt)) ;;
     name <- path_join selected_llm ;;
     status_callback ("Loading LLM model: " +:+ name +:+ "...") ;;
     outside (llama w) ;;
     status_callback "Initializing TTS system..." ;;
     outside (kokoro w) ;;
     status_callback "Loading Whisper speech recognition..." ;;
     outside (load_model w) ;;
     ret true)
    (fun e =>
       status_callback ("Error initializing models: " +:+ e) ;;
       emit (Sleep 3) ;;
       ret false).

(** *** [handle_passive_recording]

    [whisper.passive_record_and_transcribe] with the manager's status
    callback.  [stream_ok] says whether the [with sd.InputStream(...)] block
    runs without raising, [ps] are the wake-ups of its two loops and [heard]
    is what [transcribe] returns.  The result is [None] while the loops have
    not ended on [ps]; an exception gives the empty text. *)
Definition handle_passive_recording (stream_ok : bool) (ps : list Whisper.poll)
    (heard : string) : M (option string) :=
  status_callback "⌛ Waiting before recording..." ;;
  emit (Sleep 1) ;;
  status_callback "🎤 Recording..." ;;
  if stream_ok then
    match Whisper.passive_capture ps with
    | Some _ =>
        status_callback "⏳ Transcribing..." ;;
        status_callback ("Transcribed: " +:+ heard) ;;
        ret (Some heard)
    | None => ret None
    end
  else ret (Some EmptyString).

End Chat.

(** ** [src/chat_ui.py]: the branches of [start_chat] that touch the session *)
Module ChatUI.
Import Chat.

(** Calls on the curses objects made by the dispatch loop. *)
Inductive ui_call : Type :=
| UpdateHeader (recording is_ptt : bool)
| NoDelay (flag : bool)
| DisplayChat (history : list string) (offset : Z).

(** The manager and what the loop drew. *)
Definition screen : Type := ChatManager * list ui_call.

(** [clicked == 'mode'] (lines 47-53). *)
Definition click_mode (s : screen) : screen :=
  let '(_, m) := toggle_ptt_mode (fst s) in
  let ptt := is_ptt_mode (state m) in
  (m, snd s ++ [UpdateHeader false ptt; NoDelay (negb ptt)]).

(** [key == curses.KEY_UP] (lines 94-97). *)
Definition key_up (s : screen) : screen :=
  let st := state (fst s) in
  if scroll_offset st <? Z.of_nat (length (chat_history st)) * 2 then
    let '(_, m) := update (set_scroll_offset (scroll_offset st + 1)) (fst s) in
    (m, snd s ++ [DisplayChat (chat_history (state m)) (scroll_offset (state m))])
  else s.

(** [key == curses.KEY_DOWN] (lines 99-102). *)
Definition key_down (s : screen) : screen :=
  let st := state (fst s) in
  if 0 <? scroll_offset st then
    let '(_, m) := update (set_scroll_offset (scroll_offset st - 1)) (fst s) in
    (m, snd s ++ [DisplayChat (chat_history (state m)) (scroll_offset (state m))])
  else s.

(** [key == ord(' ') and chat_manager.state.is_ptt_mode] (lines 62-81).
    [opens] and [t] are what the device does, [heard] what the recogniser
    returns, [e] the engines of the turn. *)
Definition key_space (opens : bool) (t : Whisper.teardown) (heard : string)
    (e : engines) (s : screen) : screen :=
  match recording_stream (state (fst s)) with
  | None =>
      match start_recording opens (fst s) with
      | (Returned true, m1) =>
          (snd (status_callback "Recording... Press SPACE again to stop." m1),
           snd s ++ [UpdateHeader true true])
      | (_, m1) => (m1, snd s)
      end
  | Some _ =>
      let '(result, m1) := Chat.stop_recording t (fst s) in
      let header := snd s ++ [UpdateHeader false true] in
      let '(m2, shown) :=
        match result with
        | Returned (Some _) =>
            match (status_callback "Transcribing speech..." ;; transcribe heard) m1 with
            | (Returned user_message, m2) =>
                match process_voice_input e user_message m2 with
                | (Returned true, m3) =>
                    (m3, header ++ [DisplayChat (chat_history (state m3)) 0])
                | (_, m3) => (m3, header)
                end
            | (Raised _, m2) => (m2, header)
            end
        | _ =>
            (snd ((status_callback "No audio recorded. Try again." ;; emit (Sleep 2)) m1),
             header)
        end in
      (snd (status_callback "Ready to chat!" m2), shown)
  end.

(** The branches of the mouse handler (lines 36-58), chosen by comparing
    the clicked button's key with six literals. *)
Inductive click : Type :=
| ClickClear | ClickRestart | ClickSettings | ClickMode | ClickRedo | ClickStop
| ClickNothing.

Definition click_branch (clicked : option string) : click :=
  match clicked with
  | None => ClickNothing
  | Some key =>
      if decide (key = "clear") then ClickClear
      else if decide (key = "restart") then ClickRestart
      else if decide (key = "settings") then ClickSettings
      else if decide (key = "mode") then ClickMode
      else if decide (key = "redo") then ClickRedo
      else if decide (key = "stop") then ClickStop
      else ClickNothing
  end.

(** Key codes of [curses]. *)
Definition KEY_MOUSE : Z := 409.
Definition KEY_UP : Z := 259.
Definition KEY_DOWN : Z := 258.

(** The [if]/[elif] chain of the event loop (lines 31-99): which branch a
    key takes in a given state. *)
Inductive branch : Type :=
| Mouse | Space | Passive | Escape | Up | Down | Ignored.

Definition branch_of (key : Z) (st : ChatState) : branch :=
  if key =? KEY_MOUSE then Mouse
  else if (key =? 32) && is_ptt_mode st then Space
  else if negb (is_ptt_mode st) && negb (processing st) then Passive
  else if key =? 27 then Escape
  else if key =? KEY_UP then Up
  else if key =? KEY_DOWN then Down
  else Ignored.

End ChatUI.

(** ** Sequences of operations on one session *)
Module Session.
Import Chat.

(** One call of the control surface, with what the outside did during it. *)
Inductive op : Type :=
| Submit (e : engines) (text : string)
| Redo (e : engines)
| Clear
| Toggle
| StopProcessing
| StartCapture (opens : bool)
| Frames (in_data : pcm)
| StopCapture (t : Whisper.teardown)
| ScrollUp
| ScrollDown.

Definition run_op (m : ChatManager) (o : op) : ChatManager :=
  match o with
  | Submit e text => snd (process_voice_input e text m)
  | Redo e => snd (redo_last_message e m)
  | Clear => snd (clear_history m)
  | Toggle => snd (toggle_ptt_mode m)
  | StopProcessing => snd (stop_processing m)
  | StartCapture opens => snd (start_recording opens m)
  | Frames in_data => snd (deliver in_data m)
  | StopCapture t => snd (stop_recording t m)
  | ScrollUp => fst (ChatUI.key_up (m, []))
  | ScrollDown => fst (ChatUI.key_down (m, []))
  end.

Definition run (ops : list op) (m : ChatManager) : ChatManager :=
  fold_left run_op ops m.

(** The events a method adds to the trace of [m]. *)
Definition events_of {A} (c : M A) (m : ChatManager) : list event :=
  drop (length (trace m)) (trace (snd (c m))).

(** Events that are calls of the synthesis engine, respectively of playback. *)
Definition is_synthesis_call (ev : event) : bool :=
  match ev with
  | TtsCreate _ _ | TtsBlend _ _ _ _ => true
  | _ => false
  end.

Definition is_playback (ev : event) : bool :=
  match ev with
  | PlayAudio _ _ => true
  | _ => false
  end.

(** What [ChatManager.stop_recording] hands back for the samples that
    [whisper.stop_recording] returned: [(audio_data, sample_rate)] when
    [audio_data is not None and len(audio_data) > 0], else [None]. *)
Definition handed_back (audio_data : option pcm) (rate : option Z)
  : option (pcm * option Z) :=
  match audio_data with
  | Some a => if 0 <? Z.of_nat (length a) then Some (a, rate) else None
  | None => None
  end.

(** No generation call of the operation raises. *)
Definition generation_returns (o : op) : Prop :=
  match o with
  | Submit e _ | Redo e => forall text, exists reply, llm_chat e text = Returned reply
  | _ => True
  end.

(** Every teardown of the operation runs to its end. *)
Definition tears_down_cleanly (o : op) : Prop :=
  match o with
  | StopCapture t => t = Whisper.Clean
  | _ => True
  end.

(** The transcript has an even number of turns. *)
Definition paired (m : ChatManager) : Prop :=
  Nat.Even (length (chat_history (state m))).

(** [scroll_offset] lies in [[0, 2 * len(chat_history)]]. *)
Definition scroll_in_range (st : ChatState) : Prop :=
  0 <= scroll_offset st <= 2 * Z.of_nat (length (chat_history st)).

(** The four handle fields are set together or cleared together; one stream
    is open while they are set, none while they are cleared. *)
Definition capture_tracked (m : ChatManager) : Prop :=
  match recording_stream (state m), recording_frames (state m),
        recording_pyaudio (state m), sample_rate (state m) with
  | Some _, Some _, Some _, Some _ => Whisper.streams_open (audio m) = 1%nat
  | None, None, None, None => Whisper.streams_open (audio m) = 0%nat
  | _, _, _, _ => False
  end.

(** No sample exceeds 1 in magnitude. *)
Definition within_unit (a : pcm) : Prop :=
  Forall (fun x => PrimFloat.ltb 1 (PrimFloat.abs x) = false) a.

(** The last [need] polls of [l] were all below the threshold. *)
Definition quiet (p : Whisper.poll) : bool :=
  PrimFloat.ltb (Whisper.rms p) Whisper.silence_threshold.

Definition ends_quiet (need : nat) (l : list Whisper.poll) : Prop :=
  (need <= length l)%nat /\ forallb quiet (drop (length l - need) l) = true.

(** [n] is the first poll count at which [need] quiet windows in a row
    have elapsed. *)
Definition first_silence (need : nat) (ps : list Whisper.poll) (n : nat) : Prop :=
  (n <= length ps)%nat /\ ends_quiet need (take n ps) /\
  forall k, (k < n)%nat -> ~ ends_quiet need (take k ps).

(** [accumulated_silence_time] after [run] quiet windows in a row, counted
    from the start of the second loop ([reset = false], 0.0) or from the
    last loud window ([reset = true], 0.3). *)
Definition silence_after (reset : bool) (run : nat) : float :=
  Nat.iter run (fun acc => PrimFloat.add acc Whisper.check_interval)
    (if reset then 0.3%float else 0%float).

(** Length of the quiet run that ends the polls [l], continuing [run]. *)
Fixpoint quiet_run (run : nat) (l : list Whisper.poll) : nat :=
  match l with
  | [] => run
  | p :: l' => quiet_run (if quiet p then S run else 0%nat) l'
  end.

(** [len(audio_data)] never shrinks from one wake-up to the next. *)
Fixpoint buffer_grows (least : Z) (ps : list Whisper.poll) : bool :=
  match ps with
  | [] => true
  | p :: ps' => (least <=? Whisper.buffered p) && buffer_grows (Whisper.buffered p) ps'
  end.

(** Fixed collaborators for the concrete runs below. *)
Definition silent_tts : string -> option pyval -> outcome synth :=
  fun _ _ => Returned None.
Definition silent_blend : string -> option pyval -> option pyval -> Z -> outcome synth :=
  fun _ _ _ _ => Returned None.

Definition answering (reply : string) : engines :=
  mkEngines (fun _ => Returned reply) silent_tts silent_blend false false.

Definition failing (msg : string) : engines :=
  mkEngines (fun _ => Raised msg) silent_tts silent_blend false false.

Definition speaking (reply : string) (audio_data : pcm) (rate : Z) : engines :=
  mkEngines (fun _ => Returned reply)
    (fun _ _ => Returned (Some (audio_data, rate)))
    (fun _ _ _ _ => Returned (Some (audio_data, rate))) false false.

Definition fresh : ChatManager := listen (init ∅).

(** A wake-up that starts the capture: a full window above the threshold. *)
Definition loud (p : Whisper.poll) : bool :=
  Whisper.window_full p && PrimFloat.ltb Whisper.silence_threshold (Whisper.rms p).

End Session.

(** ** Python strings

    A text is a sequence of characters; one [ascii] stands for one character
    with a code point below 256. *)

(** [c.isspace()] for a code point below 256. *)
Definition is_space (c : ascii) : bool :=
  match N_of_ascii c with
  | 9 | 10 | 11 | 12 | 13 | 28 | 29 | 30 | 31 | 32 | 133 | 160 => true
  | _ => false
  end%N.

Fixpoint py_lstrip_by (f : ascii -> bool) (s : string) : string :=
  match s with
  | EmptyString => EmptyString
  | String c s' => if f c then py_lstrip_by f s' else s
  end.

Fixpoint py_rstrip_by (f : ascii -> bool) (s : string) : string :=
  match s with
  | EmptyString => EmptyString
  | String c s' =>
      match py_rstrip_by f s' with
      | EmptyString => if f c then EmptyString else String c EmptyString
      | String d r => String c (String d r)
      end
  end.

(** [s.strip()] and [s.strip(chars)]. *)
Definition py_strip (s : string) : string :=
  py_rstrip_by is_space (py_lstrip_by is_space s).

Definition py_strip_chars (chars : list ascii) (s : string) : string :=
  let f := fun c => bool_decide (c ∈ chars) in
  py_rstrip_by f (py_lstrip_by f s).

(** [c.lower()] for a code point below 256. *)
Definition lower_char (c : ascii) : ascii :=
  let n := N_of_ascii c in
  if ((65 <=? n) && (n <=? 90) ||
      (192 <=? n) && (n <=? 222) && negb (n =? 215))%N
  then ascii_of_N (n + 32) else c.

Fixpoint py_lower (s : string) : string :=
  match s with
  | EmptyString => EmptyString
  | String c s' => String (lower_char c) (py_lower s')
  end.

(** [s.split()]: the maximal runs of characters that are not whitespace.
    [word] is the run being read. *)
Fixpoint py_split_from (word : string) (s : string) : list string :=
  match s with
  | EmptyString => if truthy word then [word] else []
  | String c s' =>
      if is_space c
      then (if truthy word then [word] else []) ++ py_split_from EmptyString s'
      else py_split_from (word +:+ String c EmptyString) s'
  end.

Definition py_split (s : string) : list string := py_split_from EmptyString s.

(** [s[n:]] for [n >= 0]. *)
Fixpoint py_from (n : nat) (s : string) : string :=
  match n, s with
  | O, _ => s
  | S n', EmptyString => EmptyString
  | S n', String _ s' => py_from n' s'
  end.

(** A slice bound brought into [[0, len]]: a negative one counts from the end. *)
Definition clip_index (len : nat) (i : Z) : nat :=
  if i <? 0 then Z.to_nat (Z.max (i + Z.of_nat len) 0)
  else Nat.min (Z.to_nat i) len.

(** [l[start:stop]]. *)
Definition py_slice {A} (l : list A) (start stop : Z) : list A :=
  let a := clip_index (length l) start in
  let b := clip_index (length l) stop in
  take (b - a) (drop a l).

(** [s[:stop]] on a text. *)
Definition py_upto (stop : Z) (s : string) : string :=
  Strings.String.string_of_list_ascii (py_slice (Strings.String.list_ascii_of_string s) 0 stop).

Definition py_len (s : string) : Z := Z.of_nat (Strings.String.length s).

(** A word: a non-empty text without whitespace, as [split()] returns them. *)
Fixpoint no_space (s : string) : bool :=
  match s with
  | EmptyString => true
  | String c s' => negb (is_space c) && no_space s'
  end.

Definition is_word (s : string) : bool := truthy s && no_space s.

(** ** [src/curses.py] *)
Module Curses.

(** *** [ChatUI.update_status] *)

(** The text [update_status(message)] writes into a status window [w]
    columns wide; nothing is written for an empty message. *)
Definition update_status (w : Z) (message : string) : option string :=
  if truthy message then
    Some (if w - 4 <? py_len message
          then py_upto (w - 7) message +:+ "..."
          else message)
  else None.

(** *** [ChatUI.update_header] and [ChatUI.handle_button_click] *)

Definition buttons (is_ptt_mode : bool) : list string :=
  ["[ Clear Chat ]"; "[ Restart ]"; "[ Settings ]"; "[ Redo Last ]"; "[ Stop ]";
   "[ " +:+ (if is_ptt_mode then "PTT" else "Passive") +:+ " Mode ]"].

(** [btn.strip('[]').strip().lower()]. *)
Definition button_key (btn : string) : string :=
  py_lower (py_strip (py_strip_chars ["["%char; "]"%char] btn)).

(** [d[key] = value] on a dict kept as its items in iteration order: a new
    key goes to the end, an existing key keeps its place and takes the new
    value. *)
Fixpoint dict_set {V} (key : string) (value : V) (d : list (string * V))
  : list (string * V) :=
  match d with
  | [] => [(key, value)]
  | (k, v) :: rest =>
      if decide (k = key) then (key, value) :: rest
      else (k, v) :: dict_set key value rest
  end.

(** The loop that fills [button_positions]: each button is stored under its
    key as [(1, x_pos, len(btn))] and [x_pos] advances by [len(btn) + 2]. *)
Fixpoint place_buttons (button_positions : list (string * (Z * Z * Z)))
    (x_pos : Z) (btns : list string) : list (string * (Z * Z * Z)) :=
  match btns with
  | [] => button_positions
  | btn :: rest =>
      place_buttons
        (dict_set (button_key btn) (1, x_pos, py_len btn) button_positions)
        (x_pos + py_len btn + 2) rest
  end.

Definition button_positions (is_ptt_mode : bool) : list (string * (Z * Z * Z)) :=
  place_buttons [] 2 (buttons is_ptt_mode).

(** The assignments of the loop, one per button, in the order they are
    made. *)
Fixpoint laid_out (x_pos : Z) (btns : list string) : list (string * (Z * Z * Z)) :=
  match btns with
  | [] => []
  | btn :: rest =>
      (button_key btn, (1, x_pos, py_len btn)) :: laid_out (x_pos + py_len btn + 2) rest
  end.

(** [handle_button_click(mouse_y, mouse_x)]: the first button hit. *)
Fixpoint handle_button_click (positions : list (string * (Z * Z * Z)))
    (mouse_y mouse_x : Z) : option string :=
  match positions with
  | [] => None
  | (btn, (y, x, width)) :: rest =>
      if (mouse_y =? y) && (x <=? mouse_x) && (mouse_x <? x + width)
      then Some btn
      else handle_button_click rest mouse_y mouse_x
  end.

(** *** [ChatUI.display_chat] *)

(** The wrapping loop over the words of one message.  [limit] is
    [available_width - len(prefix) - len(speaker) - 2]; the lines are
    returned in the order they are appended to [wrapped_content]. *)
Fixpoint wrap_words (limit : Z) (words : list string) (current_line : string)
  : list string :=
  match words with
  | [] => if truthy current_line then [py_strip current_line] else []
  | word :: rest =>
      if py_len current_line + py_len word + 1 <=? limit
      then wrap_words limit rest (current_line +:+ word +:+ " ")
      else (if truthy current_line then [py_strip current_line] else []) ++
           wrap_words limit rest (word +:+ " ")
  end.

(** Speaker and content of a transcript entry: [message[4:]] after
    ["You: "], else [message[11:]]. *)
Definition speaker_of (message : string) : string :=
  if Strings.String.prefix "You: " message then "You" else "Assistant".

Definition content_of (message : string) : string :=
  if Strings.String.prefix "You: " message then py_from 4 message else py_from 11 message.

(** [len(prefix)]: an arrow and a space. *)
Definition prefix_len : Z := 2.

Definition wrapped_content (available_width : Z) (message : string) : list string :=
  wrap_words (available_width - prefix_len - py_len (speaker_of message) - 2)
    (py_split (content_of message)) EmptyString.

(** Number of entries one message adds to [formatted_lines]: its wrapped
    lines and a blank separator, or nothing when it has no words. *)
Definition formatted_count (available_width : Z) (message : string) : nat :=
  match wrapped_content available_width message with
  | [] => 0
  | _ :: _ as lines => S (length lines)
  end.

(** The lines drawn out of [formatted_lines]:
    [start_idx = max(0, len - max_lines - scroll_offset)], the slice
    [[start_idx : start_idx + max_lines]], and of it the entries whose index
    is below [max_lines]. *)
Definition start_idx (count : nat) (max_lines scroll_offset : Z) : Z :=
  Z.max 0 (Z.of_nat count - max_lines - scroll_offset).

Definition drawn {A} (formatted_lines : list A) (max_lines scroll_offset : Z)
  : list A :=
  let start := start_idx (length formatted_lines) max_lines scroll_offset in
  take (Z.to_nat max_lines) (py_slice formatted_lines start (start + max_lines)).

(** *** [CursesMenu.navigate]: the arrow keys *)

Definition menu_key_up (current_row : Z) : Z :=
  if 0 <? current_row then current_row - 1 else current_row.

Definition menu_key_down (options : nat) (current_row : Z) : Z :=
  if current_row <? Z.of_nat options - 1 then current_row + 1 else current_row.

Inductive arrow : Type := ArrowUp | ArrowDown.

Definition menu_key (options : nat) (current_row : Z) (k : arrow) : Z :=
  match k with
  | ArrowUp => menu_key_up current_row
  | ArrowDown => menu_key_down options current_row
  end.

(** [len(formatted_lines)] for a transcript. *)
Definition formatted_total (available_width : Z) (chat_history : list string) : nat :=
  sum_list (map (formatted_count available_width) chat_history).

End Curses.


(** ** [src/chat_ui.py]: the event loop of [start_chat] *)
Module StartChat.
Import Chat ChatUI Curses.

(** What the outside does during one iteration: the key [getch] returns,
    what [curses.getmouse()] gives ([None] for [curses.error], else
    [mouse_x], [mouse_y] and [button_state & BUTTON1_CLICKED]), the frames
    the stream callback delivered since the last iteration, and the
    behaviour of the devices, the recogniser and the models. *)
Record input : Type := mkInput {
  key : Z;
  getmouse : option (Z * Z * bool);
  arrived : list pcm;
  reload : loading;
  opens : bool;
  closes : Whisper.teardown;
  heard : string;
  models : engines;
  stream_ok : bool;
  polls : list Whisper.poll
}.

(** The loop is the only thread that calls the manager: nothing calls
    [stop_processing] while a turn is in flight. *)
Definition engines_of (i : input) : engines :=
  mkEngines (llm_chat (models i)) (tts_create (models i))
    (tts_create_with_blend (models i)) false false.

(** [chat_ui.button_positions]: empty at first, replaced by every
    [update_header]. *)
Definition positions_after (ui : list ui_call) : list (string * (Z * Z * Z)) :=
  fold_left
    (fun positions c =>
       match c with
       | UpdateHeader _ is_ptt_mode => button_positions is_ptt_mode
       | _ => positions
       end)
    ui [].

(** [chat_ui.display_chat(chat_manager.state.chat_history)]: the offset
    is the default, 0. *)
Definition show (m : ChatManager) (ui : list ui_call) : list ui_call :=
  ui ++ [DisplayChat (chat_history (state m)) 0].

Inductive progress : Type :=
| Continue (s : screen)   (** next iteration *)
| Exit (s : screen)       (** [return] or [break] *)
| Waiting (s : screen).   (** still inside the passive capture *)

Definition screen_of (p : progress) : screen :=
  match p with
  | Continue s | Exit s | Waiting s => s
  end.

(** The branches on [clicked] (lines 36-58). *)
Definition click_on (i : input) (s : screen) (c : click) : progress :=
  match c with
  | ClickClear =>
      let m := snd (clear_history (fst s)) in
      Continue (m, show m (snd s))
  | ClickRestart =>
      match (status_callback "Restarting models..." ;;
             initialize_models (reload i)) (fst s) with
      | (Returned true, m1) =>
          let m2 := snd (clear_history m1) in
          Continue (snd (status_callback "System restarted successfully!" m2),
                    show m2 (snd s))
      | (_, m1) => Continue (m1, snd s)
      end
  | ClickSettings => Exit s
  | ClickMode => Continue (click_mode s)
  | ClickRedo =>
      match redo_last_message (engines_of i) (fst s) with
      | (Returned true, m1) => Continue (m1, show m1 (snd s))
      | (_, m1) => Continue (m1, snd s)
      end
  | ClickStop => Continue (snd (stop_processing (fst s)), snd s)
  | ClickNothing => Continue s
  end.

(** [key == curses.KEY_MOUSE] (lines 31-60). *)
Definition on_mouse (i : input) (s : screen) : progress :=
  match getmouse i with
  | Some (mouse_x, mouse_y, true) =>
      click_on i s
        (click_branch (handle_button_click (positions_after (snd s)) mouse_y mouse_x))
  | _ => Continue s
  end.

(** [not is_ptt_mode and not processing] (lines 83-87). *)
Definition on_passive (i : input) (s : screen) : progress :=
  match handle_passive_recording (stream_ok i) (polls i) (heard i) (fst s) with
  | (Returned (Some user_message), m1) =>
      match process_voice_input (engines_of i) user_message m1 with
      | (Returned true, m2) => Continue (snd (emit (Sleep 1) m2), show m2 (snd s))
      | (_, m2) => Continue (m2, snd s)
      end
  | (_, m1) => Waiting (m1, snd s)
  end.

(** [key == 27] (lines 89-92). *)
Definition on_escape (i : input) (s : screen) : progress :=
  Exit (snd (cleanup (closes i) (fst s)), snd s ++ [NoDelay false]).

(** One iteration of [while True]. *)
Definition step (i : input) (s : screen) : progress :=
  let s := (fold_left (fun m in_data => snd (deliver in_data m)) (arrived i) (fst s),
            snd s) in
  match branch_of (key i) (state (fst s)) with
  | Mouse => on_mouse i s
  | Space =>
      Continue (key_space (opens i) (closes i) (heard i) (engines_of i) s)
  | Passive => on_passive i s
  | Escape => on_escape i s
  | Up => Continue (key_up s)
  | Down => Continue (key_down s)
  | Ignored => Continue s
  end.

Fixpoint loop (inputs : list input) (s : screen) : progress :=
  match inputs with
  | [] => Continue s
  | i :: rest =>
      match step i s with
      | Continue s' => loop rest s'
      | p => p
      end
  end.

(** [start_chat(stdscr, config, settings)] up to the inputs given. *)
Definition start_chat (w : loading) (selected_settings : gmap string pyval)
    (inputs : list input) : progress :=
  match initialize_models w (listen (init selected_settings)) with
  | (Returned true, m) =>
      loop inputs
        (snd (status_callback "Ready to chat! Press SPACE to start recording." m),
         [UpdateHeader false (is_ptt_mode (state m));
          DisplayChat (chat_history (state m)) 0])
  | (_, m) => Exit (m, [])
  end.

(** No [stdscr.nodelay(1)] among the calls. *)
Definition blocking (ui : list ui_call) : bool :=
  forallb (fun c => match c with NoDelay true => false | _ => true end) ui.

End StartChat.

(** ** [src/llama.py] *)
Module Llama.

Record message : Type := Message {
  role : string;
  content : string
}.

Definition apology : string := "An error occurred during the conversation.".

(** [LlamaChat.__init__]: the history starts with the system prompt. *)
Definition init (system_prompt : string) : list message :=
  [Message "system" system_prompt].

(** [LlamaChat.chat(user_message)].  [completion] is the model: given the
    messages it returns the content of the first choice or raises. *)
Definition chat (completion : list message -> outcome string)
    (messages : list message) (user_message : string) : string * list message :=
  let messages := messages ++ [Message "user" user_message] in
  match completion messages with
  | Returned assistant_message =>
      (assistant_message, messages ++ [Message "assistant" assistant_message])
  | Raised _ => (apology, messages)
  end.

(** A conversation: the history after the given user messages. *)
Definition converse (completion : list message -> outcome string)
    (messages : list message) (user_messages : list string) : list message :=
  fold_left (fun msgs u => snd (chat completion msgs u)) user_messages messages.

Definition has_role (r : string) (m : message) : bool :=
  bool_decide (role m = r).

(** The engines of a turn whose generation stage is [LlamaChat.chat] on the
    history [messages]. *)
Definition engines_over (completion : list message -> outcome string)
    (messages : list message) (e : Chat.engines) : Chat.engines :=
  Chat.mkEngines (fun t => Returned (fst (chat completion messages t)))
    (Chat.tts_create e) (Chat.tts_create_with_blend e)
    (Chat.stop_during_generation e) (Chat.stop_during_synthesis e).

End Llama.


(** The generation stage of the operation is a [LlamaChat]. *)
Definition uses_llama (o : Session.op) : Prop :=
  match o with
  | Session.Submit e _ | Session.Redo e =>
      exists completion messages e0, e = Llama.engines_over completion messages e0
  | _ => True
  end.

(** A transcript made of complete exchanges: a user turn, then the
    assistant turn that answers it. *)
Inductive exchanges : list string -> Prop :=
| exchanges_nil : exchanges []
| exchanges_snoc (earlier : list string) (t a : string) :
    exchanges earlier ->
    exchanges (earlier ++ [Chat.user_turn t; Chat.assistant_turn a]).

(** The transcript is made of complete exchanges and the last of them, if
    there is one, opens with the turn of [last_user_message]. *)
Definition well_formed (st : Chat.ChatState) : Prop :=
  Chat.chat_history st = [] \/
  exists earlier t a,
    exchanges earlier /\
    Chat.chat_history st = earlier ++ [Chat.user_turn t; Chat.assistant_turn a] /\
    Chat.last_user_message st = Some t.

(** ** [src/config.py] and [init_colors] of [main.py] *)
Module Config.

(** [ConfigManager._get_color_pair(color_dict)]. *)
Definition _get_color_pair (color_dict : gmap string string) : string * string :=
  (default "WHITE" (color_dict !! "foreground"),
   default "DEFAULT" (color_dict !! "background")).

Record ColorConfig : Type := mkColorConfig {
  menu_selected : string * string;
  recording_status : string * string;
  ready_status : string * string;
  user_message : string * string;
  assistant_message : string * string
}.

(** The colour part of [_load_config]: [colors] is
    [config_data.get('colors', {})]. *)
Definition load_colors (colors : gmap string (gmap string string)) : ColorConfig :=
  let pair_of key := _get_color_pair (default ∅ (colors !! key)) in
  mkColorConfig (pair_of "menu_selected") (pair_of "recording_status")
    (pair_of "ready_status") (pair_of "user_message") (pair_of "assistant_message").

(** [color_map] of [init_colors], with the values of the [curses] constants. *)
Definition color_map : gmap string Z :=
  list_to_map
    [("BLACK", 0); ("RED", 1); ("GREEN", 2); ("YELLOW", 3); ("BLUE", 4);
     ("MAGENTA", 5); ("CYAN", 6); ("WHITE", 7); ("DEFAULT", -1)].

(** [color_map[name]]: a missing key raises [KeyError]. *)
Definition color_of (name : string) : outcome Z :=
  match color_map !! name with
  | Some c => Returned c
  | None => Raised ("'" +:+ name +:+ "'")
  end.

(** One [curses.init_pair(n, color_map[fg], color_map[bg])]. *)
Definition init_pair (n : Z) (names : string * string) : outcome (Z * Z * Z) :=
  match color_of (fst names) with
  | Raised e => Raised e
  | Returned fg =>
      match color_of (snd names) with
      | Raised e => Raised e
      | Returned bg => Returned (n, fg, bg)
      end
  end.

(** [init_colors(color_config)]: the [init_pair] calls made, in order, and
    the exception that ended them, if any. *)
Fixpoint init_pairs (n : Z) (pairs : list (string * string))
  : list (Z * Z * Z) * option string :=
  match pairs with
  | [] => ([], None)
  | names :: rest =>
      match init_pair n names with
      | Raised e => ([], Some e)
      | Returned call =>
          let '(calls, err) := init_pairs (n + 1) rest in (call :: calls, err)
      end
  end.

Definition init_colors (c : ColorConfig) : list (Z * Z * Z) * option string :=
  init_pairs 1 [menu_selected c; recording_status c; ready_status c;
                user_message c; assistant_message c].

(** The paths [validate_paths] checks, in its order. *)
Record paths : Type := mkPaths {
  llm_model_path : string;
  tts_model_path : string;
  tts_voices_path : string;
  tts_voices_bin_path : string;
  system_prompt_path : string
}.

(** [', '.join(l)]. *)
Fixpoint join_comma (l : list string) : string :=
  match l with
  | [] => EmptyString
  | [x] => x
  | x :: rest => x +:+ ", " +:+ join_comma rest
  end.

(** [validate_paths()]: [exists] is [Path.exists]. *)
Definition validate_paths (exists_ : string -> bool) (p : paths) : outcome bool :=
  let paths_to_check :=
    [llm_model_path p; tts_model_path p; tts_voices_path p;
     tts_voices_bin_path p; system_prompt_path p] in
  let missing_paths := filter (fun path => exists_ path = false) paths_to_check in
  if bool_decide (missing_paths <> [])
  then Raised ("Missing required files: " +:+ join_comma missing_paths)
  else Returned true.

End Config.

Import Chat Session.

(** ** Running the methods of [ChatManager] *)

Ltac unfold_M :=
  unfold status_callback, notify_chat_updated, call in *;
  unfold bind, ret, raise, try_except, update, emit, get_state, setting, on_host in *.

(** Case analysis on the innermost scrutinee the goal is stuck on. *)
Ltac split_match :=
  match goal with
  | |- context [match ?x with _ => _ end] =>
      lazymatch x with
      | context [match _ with _ => _ end] => fail
      | _ => destruct x eqn:?
      end
  end.

Ltac crunch := repeat (simpl in *; try split_match); simpl in *.

(** * Properties *)


(** ** Passive voice-activity detection *)
Section PassiveCapture.
Import Whisper.

Lemma quiet_run_snoc (l : list poll) (run : nat) (p : poll) :
  quiet_run run (l ++ [p]) = if quiet p then S (quiet_run run l) else 0%nat.
Proof.
  revert run. induction l as [|q l IH]; intros run; simpl.
  - reflexivity.
  - apply IH.
Qed.
Lemma ends_quiet_run (l : list poll) (need : nat) :
  (need <= quiet_run 0 l)%nat <-> ends_quiet need l.
Proof.
  unfold ends_quiet. revert need.
  induction l as [|p l IH] using rev_ind; intros need.
  - simpl. intuition lia.
  - rewrite quiet_run_snoc, length_app. simpl length.
    destruct need as [|k].
    + replace (length l + 1 - 0)%nat with (length (l ++ [p])) by (rewrite length_app; simpl; lia).
      rewrite drop_all. simpl. split; [split|]; try lia; reflexivity.
    + replace (length l + 1 - S k)%nat with (length l - k)%nat by lia.
      rewrite drop_app_le by lia.
      rewrite forallb_app. simpl. rewrite andb_true_r, andb_true_iff.
      specialize (IH k).
      destruct (quiet p); split.
      * intros H. split; [lia|]. split; [|reflexivity]. apply IH. lia.
      * intros [H1 [H2 _]]. assert (k <= quiet_run 0 l)%nat by (apply IH; split; [lia|assumption]). lia.
      * lia.
      * intros [_ [_ H]]. discriminate.
Qed.

Lemma spec_await_silence_first (ps : list poll) (need run n : nat) :
  spec_await_silence need run ps = Some n <->
  (1 <= n <= length ps)%nat /\ (need <= quiet_run run (take n ps))%nat /\
  forall k, (1 <= k < n)%nat -> (quiet_run run (take k ps) < need)%nat.
Proof.
  revert run n. induction ps as [|p ps IH]; intros run n.
  - simpl. split; [discriminate | intros [H _]; lia].
  - cbn [spec_await_silence].
    fold (quiet p).
    set (run' := if quiet p then S run else 0%nat).
    assert (Hstep : forall j, quiet_run run (take (S j) (p :: ps)) = quiet_run run' (take j ps)) by reflexivity.
    destruct (Nat.leb_spec need run') as [Hle|Hlt].
    + split.
      * intros [= <-]. split; [simpl; lia|]. split.
        -- rewrite Hstep. destruct ps; simpl; exact Hle.
        -- intros k Hk. lia.
      * intros (Hn & _ & Hmin). destruct (decide (n = 1%nat)) as [->|Hne]; [reflexivity|].
        exfalso. specialize (Hmin 1%nat ltac:(lia)). rewrite Hstep in Hmin.
        destruct ps; simpl in Hmin; lia.
    + destruct (spec_await_silence need run' ps) as [n'|] eqn:E; simpl.
      * apply IH in E as (Hn & Hreach & Hmin).
        split.
        -- intros [= <-]. split; [simpl; lia|]. split; [rewrite Hstep; exact Hreach|].
           intros [|k] Hk; [lia|]. rewrite Hstep.
           destruct k as [|k]; [destruct ps; simpl; exact Hlt|]. apply Hmin. lia.
        -- intros (Hn2 & Hreach2 & Hmin2). f_equal.
           destruct n as [|n]; [lia|]. rewrite Hstep in Hreach2.
           destruct (Nat.lt_trichotomy n n') as [Hc|[Hc|Hc]]; [|lia|].
           ++ destruct n as [|n].
              ** exfalso. destruct ps; simpl in Hreach2; lia.
              ** specialize (Hmin (S n) ltac:(lia)). lia.
           ++ specialize (Hmin2 (S n') ltac:(lia)). rewrite Hstep in Hmin2. lia.
      * split; [discriminate|]. intros (Hn & Hreach & Hmin). exfalso.
        destruct n as [|n]; [lia|]. rewrite Hstep in Hreach.
        destruct n as [|n]; [destruct ps; simpl in Hreach; lia|].
        assert (spec_await_silence need run' ps = Some (S n)) as E'; [|congruence].
        apply IH. simpl in Hn. split; [lia|]. split; [exact Hreach|].
        intros k Hk. rewrite <- Hstep. apply Hmin. lia.
Qed.

Lemma buffer_grows_full (ps : list poll) (least : Z) :
  window_samples <= least -> buffer_grows least ps = true ->
  Forall (fun p => window_full p = true) ps.
Proof.
  revert least. induction ps as [|p ps IH]; intros least Hl Hg.
  - constructor.
  - simpl in Hg. apply andb_true_iff in Hg as [Hp Hg].
    apply Z.leb_le in Hp. constructor.
    + unfold window_full. apply Z.leb_le. lia.
    + apply (IH (buffered p)); [lia | exact Hg].
Qed.

Lemma buffer_grows_weaken (ps : list poll) (a b : Z) :
  a <= b -> buffer_grows b ps = true -> buffer_grows a ps = true.
Proof.
  destruct ps as [|p ps]; simpl; [reflexivity|].
  intros Hab H. apply andb_true_iff in H as [H1 H2].
  apply andb_true_iff. split; [|exact H2].
  apply Z.leb_le. apply Z.leb_le in H1. lia.
Qed.

Lemma await_onset_full (ps rest : list poll) (least : Z) :
  buffer_grows least ps = true -> await_onset ps = Some rest ->
  Forall (fun p => window_full p = true) rest.
Proof.
  revert least. induction ps as [|p ps IH]; intros least Hg Ho.
  - discriminate.
  - simpl in Hg, Ho. apply andb_true_iff in Hg as [_ Hg].
    destruct (window_full p) eqn:Hf; simpl in Ho.
    + destruct (PrimFloat.ltb silence_threshold (rms p)).
      * injection Ho as <-. apply (buffer_grows_full _ (buffered p)); [|exact Hg].
        unfold window_full in Hf. apply Z.leb_le in Hf. exact Hf.
      * apply (IH (buffered p)); assumption.
    + apply (IH (buffered p)); assumption.
Qed.

Lemma silence_after_threshold (reset : bool) (run : nat) :
  (run < windows_required)%nat ->
  PrimFloat.leb silence_duration_required (silence_after reset (S run)) =
    (windows_required <=? S run)%nat.
Proof.
  unfold windows_required. intros H.
  do 6 (destruct run as [|run]; [destruct reset; reflexivity|]). lia.
Qed.

Lemma await_silence_counts (ps : list poll) (reset : bool) (run : nat) :
  (run < windows_required)%nat ->
  Forall (fun p => window_full p = true) ps ->
  await_silence (silence_after reset run) ps =
    spec_await_silence windows_required run ps.
Proof.
  revert reset run. induction ps as [|p ps IH]; intros reset run Hr Hf.
  - reflexivity.
  - inversion Hf as [|? ? Hp Hps]; subst.
    cbn [await_silence spec_await_silence]. unfold silence_step. rewrite Hp.
    destruct (PrimFloat.ltb (rms p) silence_threshold).
    + change (PrimFloat.add (silence_after reset run) check_interval)
        with (silence_after reset (S run)).
      rewrite silence_after_threshold by exact Hr.
      destruct (Nat.leb_spec windows_required (S run)); [reflexivity|].
      f_equal. apply IH; assumption.
    + change (0.3%float) with (silence_after true 0).
      change (PrimFloat.leb silence_duration_required (silence_after true 0)) with false.
      change (windows_required <=? 0)%nat with false. cbv iota.
      f_equal. apply IH; [unfold windows_required; lia | assumption].
Qed.

Lemma await_silence_first (ps : list poll) (n : nat) :
  Forall (fun p => window_full p = true) ps ->
  await_silence 0 ps = Some n <-> first_silence windows_required ps n.
Proof.
  intros Hf.
  change 0%float with (silence_after false 0).
  rewrite await_silence_counts by (unfold windows_required; lia || assumption).
  rewrite spec_await_silence_first. unfold first_silence.
  rewrite ends_quiet_run. split.
  - intros (Hn & Hq & Hmin). split; [lia|]. split; [exact Hq|].
    intros k Hk Hend. apply ends_quiet_run in Hend.
    destruct k as [|k].
    + simpl in Hend. unfold windows_required in Hend. lia.
    + specialize (Hmin (S k) ltac:(lia)). lia.
  - intros (Hn & Hq & Hmin). split; [|split; [exact Hq|]].
    + destruct Hq as [Hq _]. rewrite length_take in Hq. unfold windows_required in Hq. lia.
    + intros k Hk. destruct (Nat.lt_ge_cases (quiet_run 0 (take k ps)) windows_required) as [|Hge]; [assumption|].
      exfalso. apply (Hmin k); [lia|]. apply ends_quiet_run. exact Hge.
Qed.

(** C2 (as amended): once onset was seen, a window at or above the threshold
    puts [accumulated_silence_time] back to 0.3 (not to zero); as
    0.3 + 5 * 0.5 < 3.0 <= 6 * 0.5, the loop still ends exactly at the first
    poll that completes six sub-threshold windows in a row, 3.0 s of silence. *)
Theorem passive_silence_run (ps rest : list poll) (n : nat) :
  buffer_grows 0 ps = true ->
  await_onset ps = Some rest ->
  (forall acc p, window_full p = true -> quiet p = false ->
     silence_step acc p = 0.3%float) /\
  (passive_capture ps = Some n <-> first_silence windows_required rest n).
Proof.
  intros Hg Ho. split.
  - intros acc p Hp Hq. unfold silence_step. rewrite Hp.
    unfold quiet in Hq. rewrite Hq. reflexivity.
  - unfold passive_capture. rewrite Ho.
    apply await_silence_first. exact (await_onset_full ps rest 0 Hg Ho).
Qed.

Lemma passive_silence_run_witness :
  first_silence windows_required (repeat (Poll 9000 0.001%float) 6) 6.
Proof.
  apply (proj2 (passive_silence_run
                  (Poll 8000 0.5%float :: repeat (Poll 9000 0.001%float) 6)
                  (repeat (Poll 9000 0.001%float) 6) 6 eq_refl eq_refl)).
  reflexivity.
Defined.

(** A loud window after one second of silence leaves 0.3, not zero. *)
Lemma silence_reset_not_zero :
  let p := Poll 8000 0.5%float in
  window_full p = true /\ quiet p = false /\
  silence_step 1%float p = 0.3%float /\ silence_step 1%float p <> 0%float.
Proof.
  cbv zeta. repeat split.
  intros H. apply (f_equal (PrimFloat.ltb 0)) in H. vm_compute in H. discriminate.
Qed.
End PassiveCapture.

Lemma events_of_app {A} (c : M A) (m : ChatManager) (new : list event) :
  trace (snd (c m)) = trace m ++ new -> events_of c m = new.
Proof.
  unfold events_of. intros ->. apply drop_app_length.
Qed.

Section Submit.
Variable e : engines.
Variable user_message : string.

(** [accept_turn] records the message, appends the user turn and raises
    [processing]; it talks to the listener and the status line only. *)
Lemma accept_turn_effect (m : ChatManager) :
  accept_turn user_message m =
    (Returned tt,
     mkChatManager (settings m) (on_chat_updated m)
       (set_processing true
          (set_chat_history (chat_history (state m) ++ [user_turn user_message])
             (set_last_user_message (Some user_message) (state m))))
       (audio m)
       (trace m ++
          (if on_chat_updated m
           then [ChatShown (chat_history (state m) ++ [user_turn user_message])
                   (scroll_offset (state m))]
           else []) ++ [Status "Thinking..."])).
Proof.
  destruct m as [s l st au tr]. unfold accept_turn. unfold_M.
  destruct l; simpl; rewrite <- ?app_assoc; reflexivity.
Qed.

(** [respond] never raises, leaves [processing] false, appends the reply iff
    generation returned one, and touches nothing else of the state. *)
Lemma respond_effect (m : ChatManager) :
  exists (b : bool) (rest : list event),
    respond e user_message m =
      (Returned b,
       mkChatManager (settings m) (on_chat_updated m)
         (set_processing false
            (set_chat_history
               (chat_history (state m) ++
                  match llm_chat e user_message with
                  | Returned a => [assistant_turn a]
                  | Raised _ => []
                  end)
               (state m)))
         (audio m) (trace m ++ LlmChat user_message :: rest)).
Proof.
  destruct m as [s l [h so rs rf rp lu pr ptt sr] au tr].
  unfold respond, synthesize, interrupted, stop_processing. unfold_M.
  crunch; rewrite <- ?app_assoc; simpl; rewrite ?app_nil_r;
    eexists _, _; reflexivity.
Qed.

Lemma process_voice_input_effect (m : ChatManager) :
  truthy user_message = true ->
  exists (b : bool) (rest : list event),
    process_voice_input e user_message m =
      (Returned b,
       mkChatManager (settings m) (on_chat_updated m)
         (set_processing false
            (set_chat_history
               (chat_history (state m) ++ user_turn user_message ::
                  match llm_chat e user_message with
                  | Returned a => [assistant_turn a]
                  | Raised _ => []
                  end)
               (set_last_user_message (Some user_message) (state m))))
         (audio m)
         (trace m ++
            (if on_chat_updated m
             then [ChatShown (chat_history (state m) ++ [user_turn user_message])
                     (scroll_offset (state m))]
             else []) ++
            Status "Thinking..." :: LlmChat user_message :: rest)).
Proof.
  intros Ht. unfold process_voice_input. rewrite Ht. simpl.
  unfold bind at 1. rewrite accept_turn_effect.
  match goal with |- context [respond e user_message ?m'] =>
    destruct (respond_effect m') as (b & rest & ->) end.
  exists b, rest. simpl. rewrite <- !app_assoc. simpl. reflexivity.
Qed.

Lemma process_voice_input_empty (m : ChatManager) :
  truthy user_message = false ->
  process_voice_input e user_message m = (Returned false, m).
Proof.
  intros Ht. unfold process_voice_input. rewrite Ht. reflexivity.
Qed.

End Submit.

(** ** [process_voice_input] when generation raises *)
Section GenerationRaises.

Lemma process_voice_input_raises (e : engines) (t msg : string) (m : ChatManager) :
  truthy t = true ->
  llm_chat e t = Raised msg ->
  process_voice_input e t m =
    (Returned false,
     mkChatManager (settings m) (on_chat_updated m)
       (set_processing false
          (set_chat_history (chat_history (state m) ++ [user_turn t])
             (set_last_user_message (Some t) (state m))))
       (audio m)
       (trace m ++
          (if on_chat_updated m
           then [ChatShown (chat_history (state m) ++ [user_turn t])
                   (scroll_offset (state m))]
           else []) ++
          [Status "Thinking..."; LlmChat t;
           Status ("Error processing input: " +:+ msg)])).
Proof.
  intros Ht Hraise. unfold process_voice_input. rewrite Ht. simpl.
  unfold bind at 1. rewrite accept_turn_effect.
  unfold respond. unfold_M. rewrite Hraise. simpl.
  rewrite <- !app_assoc. reflexivity.
Qed.

(** C6: when the generation call made by [process_voice_input e t] raises,
    the method returns [False] with [processing] reset, and the transcript is
    the old one followed by the user turn for [t]: no assistant turn was
    appended and nothing was rolled back. *)
Theorem submit_generation_raises (e : engines) (t msg : string) (m : ChatManager) :
  In (LlmChat t) (events_of (process_voice_input e t) m) ->
  llm_chat e t = Raised msg ->
  fst (process_voice_input e t m) = Returned false /\
  processing (state (snd (process_voice_input e t m))) = false /\
  chat_history (state (snd (process_voice_input e t m))) =
    chat_history (state m) ++ [user_turn t] /\
  last (chat_history (state (snd (process_voice_input e t m)))) = Some (user_turn t).
Proof.
  intros Hcall Hraise.
  destruct (truthy t) eqn:Ht.
  - rewrite (process_voice_input_raises e t msg m Ht Hraise). simpl.
    repeat split. apply last_snoc.
  - exfalso. unfold events_of in Hcall.
    rewrite process_voice_input_empty in Hcall by exact Ht. simpl in Hcall.
    rewrite drop_all in Hcall. inversion Hcall.
Qed.

Lemma submit_generation_raises_witness :
  fst (process_voice_input (failing "boom") "hello" fresh) = Returned false /\
  processing (state (snd (process_voice_input (failing "boom") "hello" fresh))) = false /\
  chat_history (state (snd (process_voice_input (failing "boom") "hello" fresh))) =
    chat_history (state fresh) ++ [user_turn "hello"] /\
  last (chat_history (state (snd (process_voice_input (failing "boom") "hello" fresh)))) =
    Some (user_turn "hello").
Proof.
  apply (submit_generation_raises (failing "boom") "hello" "boom" fresh).
  - vm_compute. auto.
  - reflexivity.
Defined.

End GenerationRaises.

(** ** [process_voice_input] when synthesis yields no audio *)
Section SilentSynthesis.

Lemma respond_silent (e : engines) (t a : string) (m : ChatManager) :
  llm_chat e t = Returned a ->
  (forall text voice, tts_create e text voice = Returned None) ->
  (forall text v1 v2 pct, tts_create_with_blend e text v1 v2 pct = Returned None) ->
  exists (b : bool) (new : list event),
    respond e t m =
      (Returned b,
       mkChatManager (settings m) (on_chat_updated m)
         (set_processing false
            (set_chat_history (chat_history (state m) ++ [assistant_turn a]) (state m)))
         (audio m) (trace m ++ new)) /\
    existsb is_playback new = false /\
    (existsb is_synthesis_call new = true ->
     b = true /\ last new = Some (Status "Ready to chat!")).
Proof.
  intros Hllm Htts Hblend.
  destruct m as [s l [h so rs rf rp lu pr ptt sr] au tr].
  unfold respond, synthesize, interrupted, stop_processing. unfold_M.
  rewrite Hllm.
  repeat (simpl; rewrite ?Htts, ?Hblend; try split_match); simpl;
    rewrite <- ?app_assoc; simpl; rewrite ?app_nil_r;
    eexists _, _; (split; [reflexivity|]); simpl;
    (split; [reflexivity|]); intros Hs; try discriminate Hs; split; reflexivity.
Qed.

(** C7: generation returns a reply and the synthesis engine, called during
    the turn, answers [(None, None)]: both turns are in the transcript, the
    method returns [True] with [processing] reset, playback was never called
    and the last status is the readiness message. *)
Theorem submit_silent_synthesis (e : engines) (t a : string) (m : ChatManager) :
  truthy t = true ->
  llm_chat e t = Returned a ->
  (forall text voice, tts_create e text voice = Returned None) ->
  (forall text v1 v2 pct, tts_create_with_blend e text v1 v2 pct = Returned None) ->
  existsb is_synthesis_call (events_of (process_voice_input e t) m) = true ->
  fst (process_voice_input e t m) = Returned true /\
  chat_history (state (snd (process_voice_input e t m))) =
    chat_history (state m) ++ [user_turn t; assistant_turn a] /\
  processing (state (snd (process_voice_input e t m))) = false /\
  existsb is_playback (events_of (process_voice_input e t) m) = false /\
  last (events_of (process_voice_input e t) m) = Some (Status "Ready to chat!").
Proof.
  intros Ht Hllm Htts Hblend.
  assert (exists (b : bool) (new : list event),
    process_voice_input e t m =
      (Returned b,
       mkChatManager (settings m) (on_chat_updated m)
         (set_processing false
            (set_chat_history
               (chat_history (state m) ++ [user_turn t; assistant_turn a])
               (set_last_user_message (Some t) (state m))))
         (audio m) (trace m ++ new)) /\
    existsb is_playback new = false /\
    (existsb is_synthesis_call new = true ->
     b = true /\ last new = Some (Status "Ready to chat!")))
    as (b & new & Hrun & Hplay & Hsyn).
  { unfold process_voice_input. rewrite Ht. simpl.
    unfold bind at 1. rewrite accept_turn_effect.
    match goal with |- context [respond e t ?m'] =>
      destruct (respond_silent e t a m' Hllm Htts Hblend)
        as (b & new & -> & Hplay & Hsyn) end.
    exists b. eexists. simpl. rewrite <- !app_assoc. simpl.
    split; [reflexivity|].
    rewrite !existsb_app. simpl. rewrite Hplay.
    split; [destruct (on_chat_updated m); reflexivity|].
    intros H. assert (Hn : existsb is_synthesis_call new = true).
    { destruct (on_chat_updated m); simpl in H; exact H. }
    destruct (Hsyn Hn) as [-> Hlast]. split; [reflexivity|].
    change (Status "Thinking..." :: new) with ([Status "Thinking..."] ++ new).
    rewrite !last_app, Hlast. reflexivity. }
  rewrite (events_of_app (process_voice_input e t) m new) by (rewrite Hrun; reflexivity).
  rewrite Hrun. simpl. intros Hcall.
  destruct (Hsyn Hcall) as [-> Hlast]. auto.
Qed.

Lemma submit_silent_synthesis_witness :
  fst (process_voice_input (answering "hi there") "hello" fresh) = Returned true /\
  chat_history (state (snd (process_voice_input (answering "hi there") "hello" fresh))) =
    chat_history (state fresh) ++ [user_turn "hello"; assistant_turn "hi there"] /\
  processing (state (snd (process_voice_input (answering "hi there") "hello" fresh))) = false /\
  existsb is_playback (events_of (process_voice_input (answering "hi there") "hello") fresh) = false /\
  last (events_of (process_voice_input (answering "hi there") "hello") fresh) =
    Some (Status "Ready to chat!").
Proof.
  apply (submit_silent_synthesis (answering "hi there") "hello" "hi there" fresh).
  - reflexivity.
  - reflexivity.
  - intros text voice. reflexivity.
  - intros text v1 v2 pct. reflexivity.
  - vm_compute. reflexivity.
Defined.

End SilentSynthesis.

(** ** [redo_last_message] *)
Section Redo.

Lemma drop_last_exchange_pair (pre : list string) (x y : string) :
  drop_last_exchange (pre ++ [x; y]) = pre.
Proof.
  unfold drop_last_exchange. rewrite length_app. simpl length.
  destruct (Nat.leb_spec 2 (length pre + 2)); [|lia].
  replace (length pre + 2 - 2)%nat with (length pre) by lia.
  apply take_app_length.
Qed.

Lemma drop_last_exchange_short (h : list string) :
  (length h < 2)%nat -> drop_last_exchange h = [].
Proof.
  intros H. unfold drop_last_exchange.
  destruct (Nat.leb_spec 2 (length h)); [lia | reflexivity].
Qed.

Lemma redo_last_message_refused (e : engines) (m : ChatManager) :
  truthy_opt (last_user_message (state m)) = false \/ processing (state m) = true ->
  redo_last_message e m = (Returned false, m).
Proof.
  intros H. unfold redo_last_message. unfold_M.
  destruct H as [-> | ->]; simpl; rewrite ?orb_true_r; reflexivity.
Qed.

Lemma redo_last_message_resubmits (e : engines) (t : string) (m : ChatManager) :
  last_user_message (state m) = Some t ->
  truthy t = true ->
  processing (state m) = false ->
  redo_last_message e m =
    process_voice_input e t
      (mkChatManager (settings m) (on_chat_updated m)
         (set_chat_history (drop_last_exchange (chat_history (state m))) (state m))
         (audio m)
         (trace m ++
            if on_chat_updated m
            then [ChatShown (drop_last_exchange (chat_history (state m)))
                    (scroll_offset (state m))]
            else [])).
Proof.
  intros Hl Ht Hp. destruct m as [s l st au tr]. simpl in *.
  unfold redo_last_message. unfold_M. simpl. rewrite Hl, Hp. simpl. rewrite Ht. simpl.
  destruct l; simpl; rewrite Hl; simpl; rewrite ?app_nil_r; reflexivity.
Qed.

Lemma redo_calls_generation (e : engines) (t : string) (m : ChatManager) :
  last_user_message (state m) = Some t ->
  truthy t = true ->
  processing (state m) = false ->
  In (LlmChat t) (events_of (redo_last_message e) m).
Proof.
  intros Hl Ht Hp. unfold events_of.
  rewrite (redo_last_message_resubmits e t m Hl Ht Hp).
  match goal with |- context [process_voice_input e t ?m2] =>
    destruct (process_voice_input_effect e t m2 Ht) as (b & rest & ->) end.
  simpl. rewrite <- app_assoc, drop_app_length.
  rewrite !in_app_iff. right. right. simpl. auto.
Qed.

End Redo.

(** ** [last_user_message] across a turn *)
Section LastUserMessage.

(** C10: an accepted submission stores [t] in [last_user_message] before the
    generation engine is consulted; whatever the engines then do, the field
    still holds [t] when the method returns, and a following redo calls the
    generation engine again with exactly [t]. *)
Theorem submit_keeps_last_user_message (e e' : engines) (t : string) (m : ChatManager) :
  truthy t = true ->
  process_voice_input e t m = respond e t (snd (accept_turn t m)) /\
  last_user_message (state (snd (accept_turn t m))) = Some t /\
  (forall u, ~ In (LlmChat u) (events_of (accept_turn t) m)) /\
  last_user_message (state (snd (process_voice_input e t m))) = Some t /\
  In (LlmChat t) (events_of (redo_last_message e') (snd (process_voice_input e t m))).
Proof.
  intros Ht. split; [|split; [|split; [|split]]].
  - unfold process_voice_input. rewrite Ht. simpl. unfold bind.
    rewrite accept_turn_effect. reflexivity.
  - rewrite accept_turn_effect. reflexivity.
  - intros u.
    rewrite (events_of_app (accept_turn t) m _
               ltac:(rewrite accept_turn_effect; reflexivity)).
    destruct (on_chat_updated m); simpl; intros H;
      repeat (destruct H as [H|H]; [discriminate H|]); exact H.
  - destruct (process_voice_input_effect e t m Ht) as (b & rest & ->). reflexivity.
  - destruct (process_voice_input_effect e t m Ht) as (b & rest & ->).
    apply redo_calls_generation; [reflexivity | exact Ht | reflexivity].
Qed.

Lemma submit_keeps_last_user_message_witness :
  process_voice_input (failing "boom") "hello" fresh =
    respond (failing "boom") "hello" (snd (accept_turn "hello" fresh)) /\
  last_user_message (state (snd (accept_turn "hello" fresh))) = Some "hello" /\
  (forall u, ~ In (LlmChat u) (events_of (accept_turn "hello") fresh)) /\
  last_user_message (state (snd (process_voice_input (failing "boom") "hello" fresh))) =
    Some "hello" /\
  In (LlmChat "hello")
    (events_of (redo_last_message (answering "hi"))
       (snd (process_voice_input (failing "boom") "hello" fresh))).
Proof.
  apply (submit_keeps_last_user_message (failing "boom") (answering "hi") "hello" fresh).
  reflexivity.
Defined.

End LastUserMessage.

(** ** Effects of the remaining methods *)
Section Methods.
Import Whisper.

Lemma clear_history_effect (m : ChatManager) :
  clear_history m =
    (Returned tt,
     mkChatManager (settings m) (on_chat_updated m)
       (set_scroll_offset 0 (set_chat_history [] (state m))) (audio m)
       (trace m ++ Status "Chat history cleared!" ::
          if on_chat_updated m then [ChatShown [] 0] else [])).
Proof.
  destruct m as [s l st au tr]. unfold clear_history. unfold_M.
  destruct l; simpl; rewrite <- ?app_assoc; reflexivity.
Qed.

Lemma toggle_ptt_mode_effect (m : ChatManager) :
  toggle_ptt_mode m =
    (Returned tt,
     mkChatManager (settings m) (on_chat_updated m)
       (set_is_ptt_mode (negb (is_ptt_mode (state m))) (state m)) (audio m)
       (trace m ++
          [Status ("Switched to " +:+
                   (if is_ptt_mode (state m) then "Passive" else "Push-to-Talk") +:+
                   " mode")])).
Proof.
  destruct m as [s l st au tr]. unfold toggle_ptt_mode. unfold_M. simpl.
  destruct (is_ptt_mode st); reflexivity.
Qed.

Lemma stop_processing_effect (m : ChatManager) :
  stop_processing m =
    (Returned tt,
     if processing (state m)
     then mkChatManager (settings m) (on_chat_updated m)
            (set_processing false (state m)) (audio m)
            (trace m ++ [Status "Processing stopped!"])
     else m).
Proof.
  destruct m as [s l st au tr]. unfold stop_processing. unfold_M. simpl.
  destruct (processing st); reflexivity.
Qed.

Lemma start_recording_busy (opens : bool) (m : ChatManager) :
  recording_stream (state m) <> None \/ processing (state m) = true ->
  start_recording opens m = (Returned false, m).
Proof.
  intros H. unfold start_recording. unfold_M. simpl.
  destruct H as [H | ->].
  - rewrite bool_decide_eq_true_2 by exact H. reflexivity.
  - rewrite orb_true_r. reflexivity.
Qed.

Lemma start_recording_idle (opens : bool) (m : ChatManager) :
  recording_stream (state m) = None ->
  processing (state m) = false ->
  start_recording opens m =
    if opens then
      (Returned true,
       mkChatManager (settings m) (on_chat_updated m)
         (set_recording (Some PaStream) (Some []) (Some PaInstance)
            (Some SAMPLE_RATE) (state m))
         (Host (S (pa_instances (audio m))) (S (streams_open (audio m)))
            (S (streams_running (audio m))))
         (trace m))
    else
      (Returned false,
       mkChatManager (settings m) (on_chat_updated m) (state m) (audio m)
         (trace m ++ [Status "Error: Could not start recording"; Sleep 2])).
Proof.
  intros Hs Hp. destruct m as [s l st au tr]. simpl in *.
  unfold start_recording. unfold_M. simpl. rewrite Hs, Hp. simpl.
  destruct opens; simpl; rewrite <- ?app_assoc; reflexivity.
Qed.

Lemma stop_recording_idle (t : teardown) (m : ChatManager) :
  recording_stream (state m) = None ->
  Chat.stop_recording t m = (Returned None, m).
Proof.
  intros Hs. unfold Chat.stop_recording. unfold_M. simpl. rewrite Hs. reflexivity.
Qed.

Lemma stop_recording_active (t : teardown) (m : ChatManager) :
  recording_stream (state m) <> None ->
  Chat.stop_recording t m =
    (Returned
       (handed_back
          (fst (Whisper.stop_recording t (recording_stream (state m))
                  (recording_frames (state m)) (recording_pyaudio (state m)) (audio m)))
          (sample_rate (state m))),
     mkChatManager (settings m) (on_chat_updated m)
       (set_recording None None None None (state m))
       (snd (Whisper.stop_recording t (recording_stream (state m))
               (recording_frames (state m)) (recording_pyaudio (state m)) (audio m)))
       (trace m ++ [Status "Processing audio..."])).
Proof.
  intros Hs. destruct m as [s l st au tr]. simpl in *.
  unfold Chat.stop_recording. unfold_M. cbn -[Whisper.stop_recording].
  destruct (recording_stream st) as [stream|] eqn:E; [|congruence].
  cbn -[Whisper.stop_recording].
  destruct (Whisper.stop_recording t (Some stream) (recording_frames st)
              (recording_pyaudio st) au) as [[a|] h]; cbn; [|reflexivity].
  destruct (0 <? Z.of_nat (length a)); reflexivity.
Qed.

End Methods.

(** ** Push-to-talk capture *)
Section Capture.
Import Whisper.

Lemma np_maximum_choice (a b : float) : np_maximum a b = a \/ np_maximum a b = b.
Proof.
  unfold np_maximum.
  destruct (PrimFloat.is_nan a); [left; reflexivity|].
  destruct (PrimFloat.is_nan b); [right; reflexivity|].
  destruct (PrimFloat.ltb a b); [right | left]; reflexivity.
Qed.

Lemma fold_np_maximum_within (xs : list float) (acc : float) :
  PrimFloat.ltb 1 acc = false ->
  Forall (fun x => PrimFloat.ltb 1 x = false) xs ->
  PrimFloat.ltb 1 (fold_left np_maximum xs acc) = false.
Proof.
  revert acc. induction xs as [|x xs IH]; intros acc Hacc Hxs; simpl.
  - exact Hacc.
  - inversion Hxs as [|? ? Hx Hrest]; subst. apply IH; [|exact Hrest].
    destruct (np_maximum_choice acc x) as [-> | ->]; assumption.
Qed.

Lemma np_max_abs_within (a : pcm) :
  a <> [] -> within_unit a ->
  exists peak, np_max_abs a = Returned peak /\ PrimFloat.ltb 1 peak = false.
Proof.
  intros Hne Hw. destruct a as [|x xs]; [congruence|].
  inversion Hw as [|? ? Hx Hxs]; subst.
  eexists. split; [reflexivity|].
  apply fold_np_maximum_within; [exact Hx|].
  apply Forall_map. exact Hxs.
Qed.

Lemma np_max_abs_nonempty (a : pcm) :
  a <> [] -> exists peak, np_max_abs a = Returned peak.
Proof.
  destruct a as [|x xs]; [congruence|]. intros _. eexists. reflexivity.
Qed.

Lemma concat_nonempty_frames (frames : list pcm) :
  concat frames <> [] -> frames <> [].
Proof. destruct frames; [simpl; congruence | congruence]. Qed.

(** What a clean [whisper.stop_recording] returns for the frames gathered. *)
Lemma whisper_stop_recording_clean (stream : pa_stream) (p : pa_instance)
    (frames : option (list pcm)) (h : host) :
  let buffer := concat (default [] frames) in
  snd (Whisper.stop_recording Clean (Some stream) frames (Some p) h) = release Clean h /\
  (buffer = [] ->
   handed_back (fst (Whisper.stop_recording Clean (Some stream) frames (Some p) h)) =
     fun _ => None) /\
  (buffer <> [] ->
   exists peak, np_max_abs buffer = Returned peak /\
     fst (Whisper.stop_recording Clean (Some stream) frames (Some p) h) =
       Some (if PrimFloat.ltb 1 peak
             then map (fun x => np_divide x peak) buffer
             else buffer)).
Proof.
  cbv zeta. unfold Whisper.stop_recording, collect.
  destruct (default [] frames) as [|f fs] eqn:E.
  - simpl. repeat split. intros H. congruence.
  - set (buffer := concat (f :: fs)). split; [|split].
    + destruct (np_max_abs buffer) as [peak|]; [destruct (PrimFloat.ltb 1 peak)|]; reflexivity.
    + intros Hb. rewrite Hb. reflexivity.
    + intros Hb. destruct (np_max_abs_nonempty buffer Hb) as [peak Hp].
      exists peak. split; [exact Hp|]. rewrite Hp.
      destruct (PrimFloat.ltb 1 peak); reflexivity.
Qed.

Lemma handed_back_nonempty (a : pcm) (rate : option Z) :
  a <> [] -> handed_back (Some a) rate = Some (a, rate).
Proof.
  intros H. destruct a; [congruence|]. reflexivity.
Qed.

End Capture.

(** ** Capture contract *)
Section CaptureClaims.
Import Whisper.

Lemma redo_last_message_cases (e : engines) (m : ChatManager) :
  redo_last_message e m = (Returned false, m) \/
  exists t, last_user_message (state m) = Some t /\ truthy t = true /\
            processing (state m) = false.
Proof.
  destruct (last_user_message (state m)) as [t|] eqn:Hl.
  - destruct (truthy t) eqn:Ht.
    + destruct (processing (state m)) eqn:Hp.
      * left. apply redo_last_message_refused. right. exact Hp.
      * right. exists t. auto.
    + left. apply redo_last_message_refused. left. rewrite Hl. exact Ht.
  - left. apply redo_last_message_refused. left. rewrite Hl. reflexivity.
Qed.

Lemma process_voice_input_capture (e : engines) (t : string) (m : ChatManager) :
  capture_tracked m -> capture_tracked (snd (process_voice_input e t m)).
Proof.
  intros H. destruct (truthy t) eqn:Ht.
  - destruct (process_voice_input_effect e t m Ht) as (b & rest & ->).
    destruct m as [s l st au tr]. exact H.
  - rewrite process_voice_input_empty by exact Ht. exact H.
Qed.

Lemma start_recording_capture (opens : bool) (m : ChatManager) :
  capture_tracked m -> capture_tracked (snd (start_recording opens m)).
Proof.
  intros H.
  destruct (recording_stream (state m)) as [stream|] eqn:Hs.
  - rewrite start_recording_busy by (left; congruence). exact H.
  - destruct (processing (state m)) eqn:Hp.
    + rewrite start_recording_busy by (right; exact Hp). exact H.
    + rewrite (start_recording_idle opens m Hs Hp).
      unfold capture_tracked in *. rewrite Hs in H.
      destruct opens; simpl.
      * destruct (recording_frames (state m)), (recording_pyaudio (state m)),
          (sample_rate (state m)); try contradiction. rewrite H. reflexivity.
      * rewrite Hs. exact H.
Qed.

Lemma stop_recording_capture (m : ChatManager) :
  capture_tracked m -> capture_tracked (snd (Chat.stop_recording Clean m)).
Proof.
  intros H.
  destruct (recording_stream (state m)) as [stream|] eqn:Hs.
  - rewrite stop_recording_active by congruence.
    unfold capture_tracked in *. rewrite Hs in *.
    destruct (recording_frames (state m)) as [frames|]; [|contradiction].
    destruct (recording_pyaudio (state m)) as [p|]; [|contradiction].
    destruct (sample_rate (state m)); [|contradiction].
    cbn -[Whisper.stop_recording].
    destruct (whisper_stop_recording_clean stream p (Some frames) (audio m)) as [-> _].
    simpl. rewrite H. reflexivity.
  - rewrite stop_recording_idle by exact Hs. exact H.
Qed.

Lemma run_op_capture (m : ChatManager) (o : op) :
  tears_down_cleanly o -> capture_tracked m -> capture_tracked (run_op m o).
Proof.
  intros Ht H. destruct o as [e t|e| | | |opens|in_data|td| |]; cbn [run_op].
  - apply process_voice_input_capture. exact H.
  - destruct (redo_last_message_cases e m) as [-> | (t & Hl & Htr & Hp)]; [exact H|].
    rewrite (redo_last_message_resubmits e t m Hl Htr Hp).
    apply process_voice_input_capture. destruct m as [s l st au tr]. exact H.
  - rewrite clear_history_effect. destruct m as [s l st au tr]. exact H.
  - rewrite toggle_ptt_mode_effect. destruct m as [s l st au tr]. exact H.
  - rewrite stop_processing_effect. destruct m as [s l st au tr]. simpl.
    destruct (processing st); exact H.
  - apply start_recording_capture. exact H.
  - destruct m as [s l [h so rs rf rp lu pr ptt sr] au tr].
    unfold capture_tracked, deliver, update in *. simpl in *.
    destruct rs, rf, rp, sr; simpl; try contradiction; exact H.
  - simpl in Ht. subst td. apply stop_recording_capture. exact H.
  - unfold ChatUI.key_up. cbn [fst snd].
    destruct (scroll_offset (state m) <? Z.of_nat (length (chat_history (state m))) * 2);
      [destruct m as [s l st au tr]|]; exact H.
  - unfold ChatUI.key_down. cbn [fst snd].
    destruct (0 <? scroll_offset (state m)); [destruct m as [s l st au tr]|]; exact H.
Qed.

Lemma run_capture (ops : list op) (m : ChatManager) :
  Forall tears_down_cleanly ops -> capture_tracked m -> capture_tracked (run ops m).
Proof.
  revert m. induction ops as [|o ops IH]; intros m Hall H; simpl.
  - exact H.
  - inversion Hall as [|? ? Ho Hrest]; subst.
    apply IH; [exact Hrest|]. apply run_op_capture; assumption.
Qed.

(** [start_recording] refuses, changing nothing, while a capture handle is
    held or a turn is processing; from an idle session with a device that
    opens it returns [True] and sets the four handle fields; it keeps the
    handle in step with the open streams, and so does every sequence of
    operations from a tracked session whose teardowns all run to their end. *)
Lemma start_recording_guard (opens : bool) (m : ChatManager) (ops : list op) :
  (recording_stream (state m) <> None \/ processing (state m) = true ->
   start_recording opens m = (Returned false, m)) /\
  (recording_stream (state m) = None -> processing (state m) = false ->
   opens = true ->
   fst (start_recording opens m) = Returned true /\
   state (snd (start_recording opens m)) =
     set_recording (Some PaStream) (Some []) (Some PaInstance) (Some SAMPLE_RATE)
       (state m) /\
   streams_open (audio (snd (start_recording opens m))) = S (streams_open (audio m))) /\
  (capture_tracked m -> capture_tracked (snd (start_recording opens m))) /\
  (capture_tracked m -> Forall tears_down_cleanly ops -> capture_tracked (run ops m)).
Proof.
  split; [|split; [|split]].
  - apply start_recording_busy.
  - intros Hs Hp ->. rewrite (start_recording_idle true m Hs Hp). simpl. auto.
  - apply start_recording_capture.
  - intros H Hall. apply run_capture; assumption.
Qed.

End CaptureClaims.

Section StopCaptureClaims.
Import Whisper.

(** C9 (as amended): with no capture [stop_recording] returns [None] and
    changes nothing.  With a capture it clears the four handle fields whatever
    the teardown does, which re-enables [start_recording]; when the teardown
    runs to its end the stream is closed and the device released, and the
    result is [None] for an empty buffer, else the buffer with the sample
    rate, every sample divided in [float32] by the peak magnitude when that
    exceeds 1.0 (so exactly the accumulated buffer when no sample does). *)
Theorem stop_recording_contract (t : teardown) (m : ChatManager) :
  (recording_stream (state m) = None ->
   Chat.stop_recording t m = (Returned None, m)) /\
  (recording_stream (state m) <> None ->
   state (snd (Chat.stop_recording t m)) =
     set_recording None None None None (state m) /\
   (processing (state m) = false ->
    fst (start_recording true (snd (Chat.stop_recording t m))) = Returned true)) /\
  (recording_stream (state m) <> None -> recording_pyaudio (state m) <> None ->
   t = Clean ->
   let buffer := concat (default [] (recording_frames (state m))) in
   audio (snd (Chat.stop_recording t m)) = release Clean (audio m) /\
   (buffer = [] -> fst (Chat.stop_recording t m) = Returned None) /\
   (buffer <> [] ->
    exists peak, np_max_abs buffer = Returned peak /\
      fst (Chat.stop_recording t m) =
        Returned (Some (if PrimFloat.ltb 1 peak
                        then map (fun x => np_divide x peak) buffer
                        else buffer,
                        sample_rate (state m)))) /\
   (buffer <> [] -> within_unit buffer ->
    fst (Chat.stop_recording t m) = Returned (Some (buffer, sample_rate (state m))))).
Proof.
  split; [|split].
  - apply stop_recording_idle.
  - intros Hs. rewrite (stop_recording_active t m Hs). cbn [fst snd state].
    split; [reflexivity|]. intros Hp.
    rewrite start_recording_idle; [reflexivity | reflexivity |].
    destruct m as [s l st au tr]. exact Hp.
  - intros Hs Hpa -> buffer. rewrite (stop_recording_active Clean m Hs).
    cbn [fst snd audio].
    destruct (recording_stream (state m)) as [stream|]; [|congruence].
    destruct (recording_pyaudio (state m)) as [p|]; [|congruence].
    destruct (whisper_stop_recording_clean stream p (recording_frames (state m)) (audio m))
      as (Haudio & Hempty & Hfull).
    fold buffer in Hempty, Hfull.
    split; [exact Haudio|]. split; [|split].
    + intros Hb. rewrite (Hempty Hb). reflexivity.
    + intros Hb. destruct (Hfull Hb) as (peak & Hpeak & ->).
      exists peak. split; [exact Hpeak|]. f_equal.
      apply handed_back_nonempty.
      destruct (PrimFloat.ltb 1 peak); [|exact Hb].
      destruct buffer; [congruence | discriminate].
    + intros Hb Hw. destruct (Hfull Hb) as (peak & Hpeak & ->).
      destruct (np_max_abs_within buffer Hb Hw) as (peak' & Hpeak' & Hle).
      rewrite Hpeak in Hpeak'. injection Hpeak' as <-. rewrite Hle.
      f_equal. apply handed_back_nonempty. exact Hb.
Qed.

Lemma stop_recording_contract_witness :
  let m := run [StartCapture true; Frames [0.5%float; (-0.25)%float]] fresh in
  state (snd (Chat.stop_recording Clean m)) = set_recording None None None None (state m) /\
  fst (Chat.stop_recording Clean m) =
    Returned (Some ([0.5%float; (-0.25)%float], Some 16000)) /\
  Chat.stop_recording Clean fresh = (Returned None, fresh).
Proof.
  cbv zeta.
  set (m := run [StartCapture true; Frames [0.5%float; (-0.25)%float]] fresh).
  pose proof (stop_recording_contract Clean m) as (_ & Hclear & Hclean).
  pose proof (stop_recording_contract Clean fresh) as (Hidle & _ & _).
  assert (Hs : recording_stream (state m) <> None) by discriminate.
  assert (Hp : recording_pyaudio (state m) <> None) by discriminate.
  split; [exact (proj1 (Hclear Hs))|]. split; [|exact (Hidle eq_refl)].
  destruct (Hclean Hs Hp eq_refl) as (_ & _ & _ & Hsame).
  apply Hsame; [discriminate|]. repeat constructor.
Defined.

(** A buffer holding a sample of magnitude 2 comes back scaled, not as it
    was accumulated. *)
Lemma stop_recording_rescales :
  let m := run [StartCapture true; Frames [2%float; (-1)%float]] fresh in
  recording_frames (state m) = Some [[2%float; (-1)%float]] /\
  fst (Chat.stop_recording Clean m) =
    Returned (Some ([1%float; (-0.5)%float], Some 16000)) /\
  fst (Chat.stop_recording Clean m) <>
    Returned (Some ([2%float; (-1)%float], Some 16000)).
Proof.
  cbv zeta. split; [reflexivity|].
  assert (H : fst (Chat.stop_recording Clean
                (run [StartCapture true; Frames [2%float; (-1)%float]] fresh)) =
              Returned (Some ([1%float; (-0.5)%float], Some 16000))) by reflexivity.
  split; [exact H|]. rewrite H. intros Heq.
  apply (f_equal (fun r => match r with
                           | Returned (Some (x :: _, _)) => PrimFloat.eqb x 1
                           | _ => false
                           end)) in Heq.
  vm_compute in Heq. discriminate Heq.
Qed.

(** The quotients are [float32] numbers: 1/3 comes back as the binary32
    number nearest to it. *)
Lemma stop_recording_divides_in_float32 :
  let m := run [StartCapture true; Frames [3%float; 1%float]] fresh in
  fst (Chat.stop_recording Clean m) =
    Returned (Some ([1%float; 0.3333333432674407958984375%float], Some 16000)).
Proof. reflexivity. Qed.

End StopCaptureClaims.

(** ** Redo, mode switch, transcript parity and scrolling *)
Section SessionClaims.

(** A trailing user and assistant pair is removed, the earlier turns stay,
    and the message is resubmitted. *)
Lemma redo_removes_trailing_pair (e : engines) (m : ChatManager)
    (pre : list string) (t a : string) :
  last_user_message (state m) = Some t -> truthy t = true ->
  processing (state m) = false ->
  chat_history (state m) = pre ++ [user_turn t; assistant_turn a] ->
  exists reply,
    chat_history (state (snd (redo_last_message e m))) = pre ++ user_turn t :: reply.
Proof.
  intros Hl Ht Hp Hh. rewrite (redo_last_message_resubmits e t m Hl Ht Hp).
  match goal with |- context [process_voice_input e t ?m1] =>
    destruct (process_voice_input_effect e t m1 Ht) as (b & rest & ->) end.
  simpl. rewrite Hh, drop_last_exchange_pair. eexists. reflexivity.
Qed.

(** C3 (as amended): [toggle_ptt_mode] flips the mode in every state, with
    no guard on [processing] or on an active capture, and reports the new
    mode; the mode button calls it unconditionally. *)
Theorem toggle_ptt_mode_unconditional (m : ChatManager) (drawn : list ChatUI.ui_call) :
  toggle_ptt_mode m =
    (Returned tt,
     mkChatManager (settings m) (on_chat_updated m)
       (set_is_ptt_mode (negb (is_ptt_mode (state m))) (state m)) (audio m)
       (trace m ++
          [Status ("Switched to " +:+
                   (if is_ptt_mode (state m) then "Passive" else "Push-to-Talk") +:+
                   " mode")])) /\
  is_ptt_mode (state (fst (ChatUI.click_mode (m, drawn)))) = negb (is_ptt_mode (state m)).
Proof.
  split; [apply toggle_ptt_mode_effect|].
  unfold ChatUI.click_mode. cbn [fst snd]. rewrite toggle_ptt_mode_effect. reflexivity.
Qed.

(** The mode flips while a capture is active, and while a turn is processing. *)
Lemma toggle_flips_while_busy :
  let capturing := run [StartCapture true] fresh in
  let thinking := snd (accept_turn "hello" fresh) in
  recording_stream (state capturing) = Some Whisper.PaStream /\
  is_ptt_mode (state capturing) = true /\
  is_ptt_mode (state (snd (toggle_ptt_mode capturing))) = false /\
  processing (state thinking) = true /\
  is_ptt_mode (state thinking) = true /\
  is_ptt_mode (state (snd (toggle_ptt_mode thinking))) = false.
Proof.
  cbv zeta. repeat split.
Qed.

Lemma drop_last_exchange_even (h : list string) :
  Nat.Even (length h) -> Nat.Even (length (drop_last_exchange h)).
Proof.
  intros [k Hk]. unfold drop_last_exchange.
  destruct (Nat.leb_spec 2 (length h)).
  - rewrite length_take. exists (k - 1)%nat. lia.
  - exists 0%nat. reflexivity.
Qed.

Lemma process_voice_input_paired (e : engines) (t : string) (m : ChatManager) :
  (forall text, exists reply, llm_chat e text = Returned reply) ->
  paired m -> paired (snd (process_voice_input e t m)).
Proof.
  intros He H. destruct (truthy t) eqn:Ht.
  - destruct (process_voice_input_effect e t m Ht) as (b & rest & ->).
    destruct (He t) as [reply ->]. unfold paired in *. simpl.
    rewrite length_app. simpl. destruct H as [k Hk]. exists (S k). lia.
  - rewrite process_voice_input_empty by exact Ht. exact H.
Qed.

Lemma run_op_paired (m : ChatManager) (o : op) :
  generation_returns o -> paired m -> paired (run_op m o).
Proof.
  intros Hg H. destruct o as [e t|e| | | |opens|in_data|td| |]; cbn [run_op].
  - apply process_voice_input_paired; assumption.
  - destruct (redo_last_message_cases e m) as [-> | (t & Hl & Htr & Hp)]; [exact H|].
    rewrite (redo_last_message_resubmits e t m Hl Htr Hp).
    apply process_voice_input_paired; [exact Hg|].
    unfold paired in *. simpl. apply drop_last_exchange_even. exact H.
  - rewrite clear_history_effect. exists 0%nat. reflexivity.
  - rewrite toggle_ptt_mode_effect. exact H.
  - rewrite stop_processing_effect. cbn [snd].
    destruct (processing (state m)); exact H.
  - destruct (recording_stream (state m)) as [stream|] eqn:Hs.
    + rewrite start_recording_busy by (left; congruence). exact H.
    + destruct (processing (state m)) eqn:Hp.
      * rewrite start_recording_busy by (right; exact Hp). exact H.
      * rewrite (start_recording_idle opens m Hs Hp). destruct opens; exact H.
  - destruct m as [s l [h so rs rf rp lu pr ptt sr] au tr].
    unfold paired, deliver, update in *. simpl in *. destruct rf; exact H.
  - destruct (recording_stream (state m)) as [stream|] eqn:Hs.
    + rewrite stop_recording_active by congruence. exact H.
    + rewrite stop_recording_idle by exact Hs. exact H.
  - unfold ChatUI.key_up. cbn [fst snd].
    destruct (scroll_offset (state m) <? Z.of_nat (length (chat_history (state m))) * 2);
      exact H.
  - unfold ChatUI.key_down. cbn [fst snd].
    destruct (0 <? scroll_offset (state m)); exact H.
Qed.

End SessionClaims.

Section Scrolling.

Lemma drop_last_exchange_regrows (h : list string) (x y : string) :
  (length h <= length (drop_last_exchange h ++ [x; y]))%nat.
Proof.
  rewrite length_app. simpl. unfold drop_last_exchange.
  destruct (Nat.leb_spec 2 (length h)).
  - rewrite length_take. lia.
  - simpl. lia.
Qed.

Lemma process_voice_input_scroll (e : engines) (t : string) (m : ChatManager) :
  scroll_in_range (state m) -> scroll_in_range (state (snd (process_voice_input e t m))).
Proof.
  intros H. destruct (truthy t) eqn:Ht.
  - destruct (process_voice_input_effect e t m Ht) as (b & rest & ->).
    unfold scroll_in_range in *. simpl. rewrite length_app. lia.
  - rewrite process_voice_input_empty by exact Ht. exact H.
Qed.

(** Scroll keys, clearing and every operation whose generation call returns
    keep [scroll_offset] within [[0, 2 * len(chat_history)]]. *)
Lemma run_op_scroll (m : ChatManager) (o : op) :
  generation_returns o ->
  scroll_in_range (state m) -> scroll_in_range (state (run_op m o)).
Proof.
  intros Hg H. destruct o as [e t|e| | | |opens|in_data|td| |]; cbn [run_op].
  - apply process_voice_input_scroll. exact H.
  - destruct (redo_last_message_cases e m) as [-> | (t & Hl & Htr & Hp)]; [exact H|].
    rewrite (redo_last_message_resubmits e t m Hl Htr Hp).
    match goal with |- context [process_voice_input e t ?m1] =>
      destruct (process_voice_input_effect e t m1 Htr) as (b & rest & ->) end.
    destruct (Hg t) as [reply ->].
    unfold scroll_in_range in *. simpl.
    pose proof (drop_last_exchange_regrows (chat_history (state m))
                  (user_turn t) (assistant_turn reply)). lia.
  - rewrite clear_history_effect. unfold scroll_in_range. simpl. lia.
  - rewrite toggle_ptt_mode_effect. exact H.
  - rewrite stop_processing_effect. cbn [snd].
    destruct (processing (state m)); exact H.
  - destruct (recording_stream (state m)) as [stream|] eqn:Hs.
    + rewrite start_recording_busy by (left; congruence). exact H.
    + destruct (processing (state m)) eqn:Hp.
      * rewrite start_recording_busy by (right; exact Hp). exact H.
      * rewrite (start_recording_idle opens m Hs Hp). destruct opens; exact H.
  - destruct m as [s l [h so rs rf rp lu pr ptt sr] au tr].
    unfold scroll_in_range, deliver, update in *. simpl in *. destruct rf; exact H.
  - destruct (recording_stream (state m)) as [stream|] eqn:Hs.
    + rewrite stop_recording_active by congruence. exact H.
    + rewrite stop_recording_idle by exact Hs. exact H.
  - unfold ChatUI.key_up. cbn [fst snd].
    destruct (Z.ltb_spec (scroll_offset (state m))
                (Z.of_nat (length (chat_history (state m))) * 2)); [|exact H].
    unfold scroll_in_range in *. simpl. lia.
  - unfold ChatUI.key_down. cbn [fst snd].
    destruct (Z.ltb_spec 0 (scroll_offset (state m))); [|exact H].
    unfold scroll_in_range in *. simpl. lia.
Qed.

Lemma run_scroll (ops : list op) (m : ChatManager) :
  Forall generation_returns ops ->
  scroll_in_range (state m) -> scroll_in_range (state (run ops m)).
Proof.
  intros Hall. revert m. induction Hall as [|o ops Ho _ IH]; intros m H; simpl.
  - exact H.
  - apply IH. apply run_op_scroll; assumption.
Qed.

End Scrolling.

(** * Further properties *)

(** ** The session methods, further *)
Section SessionMethods.
Import Whisper.

(** X1: [clear_history] empties the transcript but keeps [last_user_message]:
    a redo right after it resubmits the last message, and the transcript is
    then that one exchange. *)
Theorem clear_then_redo (e : engines) (t a : string) (m : ChatManager) :
  last_user_message (state m) = Some t ->
  truthy t = true ->
  processing (state m) = false ->
  llm_chat e t = Returned a ->
  chat_history (state (snd (clear_history m))) = [] /\
  scroll_offset (state (snd (clear_history m))) = 0 /\
  chat_history (state (snd (redo_last_message e (snd (clear_history m))))) =
    [user_turn t; assistant_turn a].
Proof.
  intros Hl Ht Hp Ha. rewrite clear_history_effect. cbn [snd state].
  split; [reflexivity|]. split; [reflexivity|].
  rewrite (redo_last_message_resubmits e t); [|exact Hl | exact Ht | exact Hp].
  match goal with |- context [process_voice_input e t ?m1] =>
    destruct (process_voice_input_effect e t m1 Ht) as (b & rest & ->) end.
  rewrite Ha. reflexivity.
Qed.

Lemma clear_then_redo_witness :
  chat_history (state (snd (redo_last_message (answering "d")
     (snd (clear_history (run [Submit (answering "b") "a"] fresh)))))) =
    [user_turn "a"; assistant_turn "d"].
Proof.
  apply (clear_then_redo (answering "d") "a" "d" (run [Submit (answering "b") "a"] fresh));
    reflexivity.
Defined.

(** X2: When the device cannot be opened, [start_recording] reports it, waits
    two seconds and returns [False]; neither the session state nor the audio
    host changed, so a later attempt with a working device succeeds. *)
Theorem start_recording_device_fails (m : ChatManager) :
  recording_stream (state m) = None ->
  processing (state m) = false ->
  fst (start_recording false m) = Returned false /\
  state (snd (start_recording false m)) = state m /\
  audio (snd (start_recording false m)) = audio m /\
  events_of (start_recording false) m =
    [Status "Error: Could not start recording"; Sleep 2] /\
  fst (start_recording true (snd (start_recording false m))) = Returned true.
Proof.
  intros Hs Hp. unfold events_of.
  rewrite (start_recording_idle false m Hs Hp). cbn [fst snd state audio trace].
  rewrite drop_app_length. repeat split.
  rewrite start_recording_idle; [reflexivity | exact Hs | exact Hp].
Qed.

Lemma start_recording_device_fails_witness :
  fst (start_recording false fresh) = Returned false /\
  state (snd (start_recording false fresh)) = state fresh /\
  audio (snd (start_recording false fresh)) = audio fresh /\
  events_of (start_recording false) fresh =
    [Status "Error: Could not start recording"; Sleep 2] /\
  fst (start_recording true (snd (start_recording false fresh))) = Returned true.
Proof.
  apply (start_recording_device_fails fresh); reflexivity.
Defined.

Lemma cleanup_tracked (t : teardown) (m : ChatManager) :
  capture_tracked m ->
  recording_stream (state m) <> None ->
  cleanup t m =
    (Returned tt,
     mkChatManager (settings m) (on_chat_updated m) (state m)
       (release t (audio m)) (trace m)).
Proof.
  intros Ht Hs. destruct m as [s l st au tr]. unfold capture_tracked in Ht.
  cbn [state audio settings on_chat_updated trace] in *.
  unfold cleanup. unfold_M. cbn -[Whisper.stop_recording].
  destruct (recording_stream st) as [stream|]; [|congruence].
  destruct (recording_frames st) as [frames|]; [|contradiction].
  destruct (recording_pyaudio st) as [p|]; [|contradiction].
  cbn -[Whisper.stop_recording].
  destruct t.
  - destruct (whisper_stop_recording_clean stream p (Some frames) au) as [Ha _].
    destruct (Whisper.stop_recording Clean (Some stream) (Some frames) (Some p) au)
      as [r h]. cbn in Ha. subst h. reflexivity.
  - reflexivity.
  - reflexivity.
  - reflexivity.
Qed.

Lemma cleanup_idle (t : teardown) (m : ChatManager) :
  recording_stream (state m) = None -> cleanup t m = (Returned tt, m).
Proof.
  intros Hs. destruct m as [s l st au tr]. cbn [state] in Hs.
  unfold cleanup. unfold_M. cbn -[Whisper.stop_recording]. rewrite Hs. reflexivity.
Qed.

(** X3: [cleanup] closes an active stream but never touches the session state:
    the handle fields stay set, so the manager refuses to record afterwards
    although no stream is open any more. *)
Theorem cleanup_leaves_stale_handle (opens : bool) (m : ChatManager) :
  capture_tracked m ->
  recording_stream (state m) <> None ->
  state (snd (cleanup Clean m)) = state m /\
  trace (snd (cleanup Clean m)) = trace m /\
  streams_open (audio (snd (cleanup Clean m))) = 0%nat /\
  start_recording opens (snd (cleanup Clean m)) =
    (Returned false, snd (cleanup Clean m)).
Proof.
  intros Ht Hs. rewrite (cleanup_tracked Clean m Ht Hs).
  cbn [snd state audio trace].
  split; [reflexivity|]. split; [reflexivity|]. split.
  - unfold capture_tracked in Ht.
    destruct (recording_stream (state m)), (recording_frames (state m)),
      (recording_pyaudio (state m)), (sample_rate (state m));
      try contradiction; try congruence.
    cbn. rewrite Ht. reflexivity.
  - apply start_recording_busy. left. exact Hs.
Qed.

Lemma cleanup_leaves_stale_handle_witness :
  streams_open (audio (snd (cleanup Clean (run [StartCapture true] fresh)))) = 0%nat /\
  start_recording true (snd (cleanup Clean (run [StartCapture true] fresh))) =
    (Returned false, snd (cleanup Clean (run [StartCapture true] fresh))).
Proof.
  pose proof (cleanup_leaves_stale_handle true (run [StartCapture true] fresh))
    as H.
  destruct H as (_ & _ & Hopen & Hrefuse).
  - reflexivity.
  - discriminate.
  - split; assumption.
Defined.

(** X4: When [stream.stop_stream()] raises, [stop_recording] returns [None]
    (the frames are dropped) and still clears the handle while the stream
    stays open: the next recording opens a second stream. *)
Theorem stop_recording_leaks_stream (m : ChatManager) :
  capture_tracked m ->
  recording_stream (state m) <> None ->
  processing (state m) = false ->
  fst (Chat.stop_recording StopRaises m) = Returned None /\
  recording_stream (state (snd (Chat.stop_recording StopRaises m))) = None /\
  streams_open (audio (snd (Chat.stop_recording StopRaises m))) = 1%nat /\
  streams_open
    (audio (snd (start_recording true (snd (Chat.stop_recording StopRaises m))))) = 2%nat.
Proof.
  intros Ht Hs Hp. rewrite (stop_recording_active StopRaises m Hs).
  unfold capture_tracked in Ht.
  destruct (recording_stream (state m)) as [stream|] eqn:Es; [|congruence].
  destruct (recording_frames (state m)) as [frames|]; [|contradiction].
  destruct (recording_pyaudio (state m)) as [p|]; [|contradiction].
  destruct (sample_rate (state m)); [|contradiction].
  cbn [fst snd state audio Whisper.stop_recording release handed_back].
  split; [reflexivity|]. split; [reflexivity|]. split; [exact Ht|].
  rewrite start_recording_idle; [|reflexivity|].
  - cbn. rewrite Ht. reflexivity.
  - destruct m as [s l st au tr]. exact Hp.
Qed.

Lemma stop_recording_leaks_stream_witness :
  streams_open
    (audio (snd (start_recording true
       (snd (Chat.stop_recording StopRaises (run [StartCapture true] fresh)))))) = 2%nat.
Proof.
  pose proof (stop_recording_leaks_stream (run [StartCapture true] fresh)) as H.
  destruct H as (_ & _ & _ & Htwo).
  - reflexivity.
  - discriminate.
  - reflexivity.
  - exact Htwo.
Defined.

End SessionMethods.

Section Pipeline.

Lemma process_voice_input_processing (e : engines) (t : string) (m : ChatManager) :
  processing (state m) = false ->
  processing (state (snd (process_voice_input e t m))) = false.
Proof.
  intros H. destruct (truthy t) eqn:Ht.
  - destruct (process_voice_input_effect e t m Ht) as (b & rest & ->). reflexivity.
  - rewrite process_voice_input_empty by exact Ht. exact H.
Qed.

Lemma run_op_processing (m : ChatManager) (o : op) :
  processing (state m) = false -> processing (state (run_op m o)) = false.
Proof.
  intros H. destruct o as [e t|e| | | |opens|in_data|td| |]; cbn [run_op].
  - apply process_voice_input_processing. exact H.
  - destruct (redo_last_message_cases e m) as [-> | (t & Hl & Htr & Hp)]; [exact H|].
    rewrite (redo_last_message_resubmits e t m Hl Htr Hp).
    apply process_voice_input_processing. exact H.
  - rewrite clear_history_effect. exact H.
  - rewrite toggle_ptt_mode_effect. exact H.
  - rewrite stop_processing_effect. cbn [snd]. rewrite H. exact H.
  - destruct (recording_stream (state m)) as [stream|] eqn:Hs.
    + rewrite start_recording_busy by (left; congruence). exact H.
    + rewrite (start_recording_idle opens m Hs H). destruct opens; exact H.
  - destruct m as [s l [h so rs rf rp lu pr ptt sr] au tr].
    unfold deliver, update in *. simpl in *. destruct rf; exact H.
  - destruct (recording_stream (state m)) as [stream|] eqn:Hs.
    + rewrite stop_recording_active by congruence. exact H.
    + rewrite stop_recording_idle by exact Hs. exact H.
  - unfold ChatUI.key_up. cbn [fst snd].
    destruct (scroll_offset (state m) <? Z.of_nat (length (chat_history (state m))) * 2);
      exact H.
  - unfold ChatUI.key_down. cbn [fst snd].
    destruct (0 <? scroll_offset (state m)); exact H.
Qed.

(** X5: No operation returns with [processing] set: whatever the engines and
    the device do, generation raising included, the flag is false again
    after every operation of every sequence. *)
Theorem processing_cleared (ops : list op) (m : ChatManager) :
  processing (state m) = false -> processing (state (run ops m)) = false.
Proof.
  revert m. induction ops as [|o ops IH]; intros m H; simpl.
  - exact H.
  - apply IH. apply run_op_processing. exact H.
Qed.

Lemma processing_cleared_witness :
  processing (state (run [Submit (failing "boom") "a"; Redo (answering "b"); Toggle]
                       fresh)) = false.
Proof.
  apply (processing_cleared [Submit (failing "boom") "a"; Redo (answering "b"); Toggle]
           fresh).
  reflexivity.
Defined.

(** X6: Two mode switches in a row give back the session state they started
    from; each one reports the mode it switched to. *)
Theorem toggle_ptt_mode_twice (m : ChatManager) :
  state (snd (toggle_ptt_mode (snd (toggle_ptt_mode m)))) = state m /\
  events_of toggle_ptt_mode m =
    [Status ("Switched to " +:+
             (if is_ptt_mode (state m) then "Passive" else "Push-to-Talk") +:+ " mode")].
Proof.
  unfold events_of. rewrite !toggle_ptt_mode_effect. cbn [snd state trace].
  rewrite drop_app_length. split; [|reflexivity].
  destruct m as [s l [h so rs rf rp lu pr ptt sr] au tr]. cbn.
  rewrite negb_involutive. reflexivity.
Qed.

(** X7: A turn that runs to its end with a single voice: the exact sequence of
    effects.  The assistant's text is shown before synthesis starts, the
    audio is played once, and the last status is the readiness message. *)
Theorem successful_turn_trace (e : engines) (t a : string) (audio_data : pcm)
    (rate : Z) (m : ChatManager) :
  truthy t = true ->
  llm_chat e t = Returned a ->
  settings m !! "TTS Voice" <> Some blend_voices ->
  tts_create e a (settings m !! "TTS Voice") = Returned (Some (audio_data, rate)) ->
  stop_during_generation e = false ->
  stop_during_synthesis e = false ->
  fst (process_voice_input e t m) = Returned true /\
  chat_history (state (snd (process_voice_input e t m))) =
    chat_history (state m) ++ [user_turn t; assistant_turn a] /\
  events_of (process_voice_input e t) m =
    (if on_chat_updated m
     then [ChatShown (chat_history (state m) ++ [user_turn t]) (scroll_offset (state m))]
     else []) ++
    [Status "Thinking..."; LlmChat t] ++
    (if on_chat_updated m
     then [ChatShown (chat_history (state m) ++ [user_turn t; assistant_turn a])
             (scroll_offset (state m))]
     else []) ++
    [Status "Synthesizing speech..."; TtsCreate a (settings m !! "TTS Voice");
     Status "Playing response..."; PlayAudio audio_data rate;
     Status "Ready to chat!"].
Proof.
  intros Ht Hllm Hv Htts Hg Hs. unfold events_of.
  unfold process_voice_input. rewrite Ht. cbn [negb].
  unfold bind at 1. rewrite accept_turn_effect.
  destruct m as [s l [h so rs rf rp lu pr ptt sr] au tr].
  cbn [settings on_chat_updated state audio trace chat_history scroll_offset] in *.
  unfold respond, synthesize, interrupted, stop_processing. unfold_M.
  rewrite Hllm, Hg, Hs. cbn -[lookup].
  destruct l; cbn -[lookup];
    (destruct (decide (s !! "TTS Voice" = Some blend_voices)) as [Hb|_];
       [contradiction|]);
    cbn -[lookup]; rewrite Htts; cbn -[lookup];
    rewrite <- ?app_assoc; cbn -[lookup];
    (split; [reflexivity|]); (split; [rewrite <- ?app_assoc; reflexivity|]);
    rewrite drop_app_length; reflexivity.
Qed.

Lemma successful_turn_trace_witness :
  fst (process_voice_input (speaking "hi there" [0.5%float] 24000) "hello" fresh) =
    Returned true /\
  chat_history (state (snd (process_voice_input (speaking "hi there" [0.5%float] 24000)
                              "hello" fresh))) =
    [user_turn "hello"; assistant_turn "hi there"].
Proof.
  pose proof (successful_turn_trace (speaking "hi there" [0.5%float] 24000)
                "hello" "hi there" [0.5%float] 24000 fresh) as H.
  destruct H as (Hr & Hh & _); try reflexivity.
  - discriminate.
  - split; [exact Hr | exact Hh].
Defined.

End Pipeline.

Section Cancellation.

Lemma respond_stopped_early (e : engines) (t a : string) (m : ChatManager) :
  llm_chat e t = Returned a ->
  processing (state m) = true ->
  stop_during_generation e = true ->
  respond e t m =
    (Returned true,
     mkChatManager (settings m) (on_chat_updated m)
       (set_processing false
          (set_chat_history (chat_history (state m) ++ [assistant_turn a]) (state m)))
       (audio m)
       (trace m ++ LlmChat t ::
          (if on_chat_updated m
           then [ChatShown (chat_history (state m) ++ [assistant_turn a])
                   (scroll_offset (state m))]
           else []) ++
          [Status "Processing stopped!"; Status "Ready to chat!"])).
Proof.
  intros Hllm Hp Hg.
  destruct m as [s l [h so rs rf rp lu pr ptt sr] au tr]. cbn in Hp. subst pr.
  unfold respond, synthesize, interrupted, stop_processing. unfold_M.
  rewrite Hllm, Hg. destruct l; cbn -[lookup]; rewrite <- ?app_assoc; reflexivity.
Qed.

Lemma respond_stopped_late (e : engines) (t a : string) (m : ChatManager) :
  llm_chat e t = Returned a ->
  stop_during_synthesis e = true ->
  exists (b : bool) (new : list event),
    respond e t m =
      (Returned b,
       mkChatManager (settings m) (on_chat_updated m)
         (set_processing false
            (set_chat_history (chat_history (state m) ++ [assistant_turn a]) (state m)))
         (audio m) (trace m ++ new)) /\
    existsb is_playback new = false.
Proof.
  intros Hllm Hs.
  destruct m as [s l [h so rs rf rp lu pr ptt sr] au tr].
  unfold respond, synthesize, interrupted, stop_processing. unfold_M.
  rewrite Hllm, Hs.
  repeat (cbn -[lookup]; try split_match); cbn -[lookup];
    rewrite <- ?app_assoc; cbn -[lookup]; rewrite ?app_nil_r;
    eexists _, _; (split; [reflexivity|]); reflexivity.
Qed.

Lemma process_voice_input_stopped (e : engines) (t a : string) (m : ChatManager) :
  truthy t = true ->
  llm_chat e t = Returned a ->
  stop_during_generation e = true \/ stop_during_synthesis e = true ->
  exists (b : bool) (new : list event),
    process_voice_input e t m =
      (Returned b,
       mkChatManager (settings m) (on_chat_updated m)
         (set_processing false
            (set_chat_history
               (chat_history (state m) ++ [user_turn t; assistant_turn a])
               (set_last_user_message (Some t) (state m))))
         (audio m) (trace m ++ new)) /\
    existsb is_playback new = false /\
    (stop_during_generation e = true ->
     b = true /\ existsb is_synthesis_call new = false).
Proof.
  intros Ht Hllm Hstop.
  unfold process_voice_input. rewrite Ht. cbn [negb].
  unfold bind at 1. rewrite accept_turn_effect.
  match goal with |- context [respond e t ?m1] => set (m' := m1) end.
  destruct (stop_during_generation e) eqn:Hg.
  - rewrite (respond_stopped_early e t a m' Hllm eq_refl Hg). subst m'.
    cbn [fst snd state trace chat_history processing set_processing set_chat_history
         settings on_chat_updated audio scroll_offset set_last_user_message].
    rewrite <- !app_assoc. eexists _, _. split; [reflexivity|].
    destruct (on_chat_updated m); cbn; auto.
  - destruct Hstop as [Hstop|Hs]; [discriminate|].
    destruct (respond_stopped_late e t a m' Hllm Hs) as (b & new & -> & Hplay).
    subst m'.
    cbn [fst snd state trace chat_history processing set_processing set_chat_history
         settings on_chat_updated audio scroll_offset set_last_user_message].
    rewrite <- !app_assoc. eexists _, _. split; [reflexivity|].
    split; [|discriminate].
    rewrite !existsb_app, Hplay. destruct (on_chat_updated m); reflexivity.
Qed.

(** X8: Cooperative cancellation.  A stop seen after generation skips synthesis
    and playback altogether; a stop seen after synthesis skips playback.  In
    both cases the transcript keeps the user turn and the reply. *)
Theorem stopped_turn_skips_stages (e : engines) (t a : string) (m : ChatManager) :
  truthy t = true ->
  llm_chat e t = Returned a ->
  stop_during_generation e = true \/ stop_during_synthesis e = true ->
  chat_history (state (snd (process_voice_input e t m))) =
    chat_history (state m) ++ [user_turn t; assistant_turn a] /\
  processing (state (snd (process_voice_input e t m))) = false /\
  existsb is_playback (events_of (process_voice_input e t) m) = false /\
  (stop_during_generation e = true ->
   fst (process_voice_input e t m) = Returned true /\
   existsb is_synthesis_call (events_of (process_voice_input e t) m) = false).
Proof.
  intros Ht Hllm Hstop. unfold events_of.
  destruct (process_voice_input_stopped e t a m Ht Hllm Hstop)
    as (b & new & -> & Hplay & Hearly).
  cbn [fst snd state trace chat_history processing set_processing set_chat_history].
  rewrite drop_app_length.
  split; [reflexivity|]. split; [reflexivity|]. split; [exact Hplay|].
  intros Hg. destruct (Hearly Hg) as [-> Hsyn]. split; [reflexivity|exact Hsyn].
Qed.

Lemma stopped_turn_skips_stages_witness :
  let e := mkEngines (fun _ => Returned "hi")
             (fun _ _ => Returned (Some ([0.5%float], 24000))) silent_blend true false in
  chat_history (state (snd (process_voice_input e "hello" fresh))) =
    [user_turn "hello"; assistant_turn "hi"] /\
  existsb is_playback (events_of (process_voice_input e "hello") fresh) = false.
Proof.
  cbv zeta.
  pose proof (stopped_turn_skips_stages
                (mkEngines (fun _ => Returned "hi")
                   (fun _ _ => Returned (Some ([0.5%float], 24000))) silent_blend true false)
                "hello" "hi" fresh) as H.
  destruct H as (Hh & _ & Hp & _); try reflexivity.
  - left. reflexivity.
  - split; [exact Hh | exact Hp].
Defined.

(** X9: With the blend entry selected as voice and no ["Blend Ratio"] in the
    settings, synthesis is the blend call with the two configured voices and
    a ratio of 50 percent. *)
Theorem blend_ratio_defaults_to_50 (e : engines) (t a : string) (m : ChatManager) :
  truthy t = true ->
  llm_chat e t = Returned a ->
  stop_during_generation e = false ->
  settings m !! "TTS Voice" = Some blend_voices ->
  settings m !! "Blend Ratio" = None ->
  In (TtsBlend a (settings m !! "Voice 1") (settings m !! "Voice 2") 50)
     (events_of (process_voice_input e t) m) /\
  forall text voice, ~ In (TtsCreate text voice) (events_of (process_voice_input e t) m).
Proof.
  intros Ht Hllm Hg Hv Hr. unfold events_of.
  unfold process_voice_input. rewrite Ht. cbn [negb].
  unfold bind at 1. rewrite accept_turn_effect.
  destruct m as [s l [h so rs rf rp lu pr ptt sr] au tr].
  cbn [settings on_chat_updated state audio trace chat_history scroll_offset] in *.
  unfold respond, synthesize, interrupted, stop_processing. unfold_M.
  rewrite Hllm, Hg. cbn -[lookup].
  destruct l; cbn -[lookup]; rewrite Hv;
    (destruct (decide (Some blend_voices = Some blend_voices)) as [_|Hne];
       [|congruence]);
    cbn -[lookup]; rewrite Hr; cbn -[lookup];
    repeat (cbn -[lookup]; try split_match); cbn -[lookup];
    rewrite <- ?app_assoc; cbn -[lookup]; rewrite ?drop_app_length;
    (split; [cbn; tauto|]); intros text voice Hin; cbn in Hin;
    repeat (destruct Hin as [Hin|Hin]; [discriminate Hin|]); exact Hin.
Qed.

Lemma blend_ratio_defaults_to_50_witness :
  let m := listen (init (<["TTS Voice" := blend_voices]>
                          (<["Voice 1" := PStr "af"]> (<["Voice 2" := PStr "bm"]> ∅)))) in
  In (TtsBlend "hi" (settings m !! "Voice 1") (settings m !! "Voice 2") 50)
     (events_of (process_voice_input (answering "hi") "hello") m) /\
  forall text voice,
    ~ In (TtsCreate text voice) (events_of (process_voice_input (answering "hi") "hello") m).
Proof.
  intros m.
  apply (blend_ratio_defaults_to_50 (answering "hi") "hello" "hi" m).
  - reflexivity.
  - reflexivity.
  - reflexivity.
  - vm_compute. reflexivity.
  - vm_compute. reflexivity.
Defined.

End Cancellation.

Section Header.
Import Curses ChatUI.

Lemma py_len_nonneg (s : string) : 0 <= py_len s.
Proof. unfold py_len. lia. Qed.

Lemma handle_button_click_key (positions : list (string * (Z * Z * Z)))
    (mouse_y mouse_x : Z) (btn : string) :
  handle_button_click positions mouse_y mouse_x = Some btn ->
  In btn (map fst positions).
Proof.
  induction positions as [|[k [[y x] w]] rest IH]; cbn [handle_button_click].
  - discriminate.
  - destruct ((mouse_y =? y) && (x <=? mouse_x) && (mouse_x <? x + w)).
    + intros [= <-]. left. reflexivity.
    + intros H. right. apply IH. exact H.
Qed.

Lemma laid_out_entry (btns : list string) (x_pos : Z) (k : string) (r c w : Z) :
  In (k, (r, c, w)) (laid_out x_pos btns) ->
  r = 1 /\ x_pos <= c /\ 0 <= w.
Proof.
  revert x_pos. induction btns as [|btn rest IH]; intros x_pos; cbn [laid_out].
  - intros [].
  - intros [[= <- <- <- <-] | Hin].
    + pose proof (py_len_nonneg btn). lia.
    + destruct (IH _ Hin) as (-> & Hc & Hw). pose proof (py_len_nonneg btn). lia.
Qed.

Lemma laid_out_keys (btns : list string) (x_pos : Z) :
  map fst (laid_out x_pos btns) = map button_key btns.
Proof.
  revert x_pos. induction btns as [|btn rest IH]; intros x_pos; cbn [laid_out map fst].
  - reflexivity.
  - rewrite IH. reflexivity.
Qed.

Lemma dict_set_new {V} (key : string) (value : V) (d : list (string * V)) :
  ~ In key (map fst d) -> dict_set key value d = d ++ [(key, value)].
Proof.
  induction d as [|[k v] rest IH]; cbn [dict_set map fst app In]; intros Hk.
  - reflexivity.
  - destruct (decide (k = key)) as [E|_]; [exfalso; apply Hk; left; exact E|].
    rewrite IH; [reflexivity|]. intros Hin. apply Hk. right. exact Hin.
Qed.

(** With distinct keys the dict holds the assignments in the order they
    were made. *)
Lemma place_buttons_distinct (btns : list string)
    (positions : list (string * (Z * Z * Z))) (x_pos : Z) :
  NoDup (map fst positions ++ map button_key btns) ->
  place_buttons positions x_pos btns = positions ++ laid_out x_pos btns.
Proof.
  revert positions x_pos.
  induction btns as [|btn rest IH]; intros positions x_pos Hnd;
    cbn [place_buttons laid_out].
  - rewrite app_nil_r. reflexivity.
  - cbn [map] in Hnd.
    assert (Hnew : ~ In (button_key btn) (map fst positions)).
    { apply NoDup_app in Hnd as (_ & Hdis & _). intros Hin.
      apply (Hdis (button_key btn)); [apply list_elem_of_In; exact Hin|].
      apply list_elem_of_In. left. reflexivity. }
    rewrite (dict_set_new _ _ _ Hnew), IH.
    + rewrite <- app_assoc. reflexivity.
    + rewrite map_app. cbn [map fst]. rewrite <- app_assoc. exact Hnd.
Qed.

Lemma button_positions_laid_out (is_ptt_mode : bool) :
  button_positions is_ptt_mode = laid_out 2 (buttons is_ptt_mode).
Proof. destruct is_ptt_mode; vm_compute; reflexivity. Qed.

Lemma click_branch_live (is_ptt_mode : bool) (mouse_y mouse_x : Z) :
  let b := click_branch
             (handle_button_click (button_positions is_ptt_mode) mouse_y mouse_x) in
  b = ClickRestart \/ b = ClickSettings \/ b = ClickStop \/ b = ClickNothing.
Proof.
  cbv zeta.
  destruct (handle_button_click (button_positions is_ptt_mode) mouse_y mouse_x)
    as [btn|] eqn:E.
  - apply handle_button_click_key in E.
    destruct is_ptt_mode; vm_compute in E;
      repeat (destruct E as [<-|E]; [vm_compute; tauto|]);
      destruct E.
  - cbn. tauto.
Qed.

(** X10: The header's buttons as [start_chat] sees them.  Whatever the mode
    and wherever the click, the key [handle_button_click] returns never
    equals ['clear'], ['redo'] or ['mode']: [update_header] stores these
    buttons under ['clear chat'], ['redo last'] and ['ptt mode'] or
    ['passive mode'], so the three branches are never taken. *)
Theorem header_buttons_dead (is_ptt_mode : bool) (mouse_y mouse_x : Z) :
  let b := click_branch
             (handle_button_click (button_positions is_ptt_mode) mouse_y mouse_x) in
  b <> ClickClear /\ b <> ClickRedo /\ b <> ClickMode.
Proof.
  cbv zeta.
  destruct (click_branch_live is_ptt_mode mouse_y mouse_x) as [H|[H|[H|H]]];
    cbv zeta in H; rewrite H; repeat split; discriminate.
Qed.

Lemma laid_out_hit (btns : list string) (x_pos : Z) (k : string)
    (r c w mouse_x : Z) :
  In (k, (r, c, w)) (laid_out x_pos btns) ->
  c <= mouse_x < c + w ->
  handle_button_click (laid_out x_pos btns) 1 mouse_x = Some k.
Proof.
  revert x_pos. induction btns as [|btn rest IH]; intros x_pos; cbn [laid_out].
  - intros [].
  - intros [[= <- <- <- <-] | Hin] Hx; cbn [handle_button_click].
    + replace ((1 =? 1) && (x_pos <=? mouse_x) && (mouse_x <? x_pos + py_len btn))
        with true; [reflexivity|].
      symmetry. rewrite !andb_true_iff.
      split; [split|]; [reflexivity | apply Z.leb_le; lia | apply Z.ltb_lt; lia].
    + destruct (laid_out_entry _ _ _ _ _ _ Hin) as (_ & Hc & _).
      replace ((1 =? 1) && (x_pos <=? mouse_x) && (mouse_x <? x_pos + py_len btn))
        with false.
      * apply IH; assumption.
      * symmetry. rewrite !andb_false_iff. right. apply Z.ltb_ge. lia.
Qed.

Lemma laid_out_off_row (btns : list string) (x_pos mouse_y mouse_x : Z) :
  mouse_y <> 1 -> handle_button_click (laid_out x_pos btns) mouse_y mouse_x = None.
Proof.
  intros Hy. revert x_pos.
  induction btns as [|btn rest IH]; intros x_pos; cbn [laid_out handle_button_click].
  - reflexivity.
  - destruct (Z.eqb_spec mouse_y 1) as [E|_]; [contradiction|]. cbn [andb]. apply IH.
Qed.

(** X11: for button texts with distinct keys, as the six of the header have
    in either mode, the buttons stored by [update_header] do not overlap: a
    click inside the columns of a button on row 1 returns that button's key,
    and a click on any other row returns [None]. *)
Theorem click_finds_button (btns : list string) (x_pos : Z) (k : string)
    (r c w mouse_x : Z) :
  NoDup (map button_key btns) ->
  In (k, (r, c, w)) (place_buttons [] x_pos btns) ->
  c <= mouse_x < c + w ->
  handle_button_click (place_buttons [] x_pos btns) 1 mouse_x = Some k /\
  forall mouse_y, mouse_y <> 1 ->
    handle_button_click (place_buttons [] x_pos btns) mouse_y mouse_x = None.
Proof.
  intros Hnd. rewrite (place_buttons_distinct btns [] x_pos Hnd). cbn [app].
  intros Hin Hx. split.
  - exact (laid_out_hit btns x_pos k r c w mouse_x Hin Hx).
  - intros mouse_y Hy. apply laid_out_off_row. exact Hy.
Qed.

Lemma click_finds_button_witness :
  NoDup (map button_key (buttons true)) /\
  NoDup (map button_key (buttons false)) /\
  handle_button_click (place_buttons [] 2 (buttons true)) 1 20 = Some "restart".
Proof.
  assert (H1 : NoDup (map button_key (buttons true)))
    by (apply (bool_decide_unpack _); vm_compute; exact I).
  assert (H2 : NoDup (map button_key (buttons false)))
    by (apply (bool_decide_unpack _); vm_compute; exact I).
  split; [exact H1|]. split; [exact H2|].
  apply (click_finds_button (buttons true) 2 "restart" 1 18 11 20 H1).
  - vm_compute. right. left. reflexivity.
  - lia.
Defined.

(** Two texts with the same key share one entry of the dict, the place of
    the first and the columns of the second: a click on the first button's
    columns finds nothing. *)
Lemma equal_keys_share_entry :
  place_buttons [] 2 ["[ A ]"; "[ a ]"] = [("a", (1, 9, 5))] /\
  handle_button_click (place_buttons [] 2 ["[ A ]"; "[ a ]"]) 1 3 = None.
Proof. split; reflexivity. Qed.

End Header.

Section Strings.

Lemma append_cons (c : ascii) (s t : string) :
  String c s +:+ t = String c (s +:+ t).
Proof. reflexivity. Qed.

Lemma append_nil_l (t : string) : EmptyString +:+ t = t.
Proof. reflexivity. Qed.

Lemma append_nil_r (s : string) : s +:+ EmptyString = s.
Proof. induction s as [|c s IH]; [reflexivity|]. rewrite append_cons, IH. reflexivity. Qed.

Lemma append_assoc (s t u : string) : (s +:+ t) +:+ u = s +:+ (t +:+ u).
Proof.
  induction s as [|c s IH]; [reflexivity|]. rewrite !append_cons, IH. reflexivity.
Qed.

Lemma py_len_append (s t : string) : py_len (s +:+ t) = py_len s + py_len t.
Proof.
  unfold py_len. induction s as [|c s IH]; [reflexivity|].
  rewrite append_cons. cbn [Strings.String.length]. lia.
Qed.

Lemma py_len_cons (c : ascii) (s : string) : py_len (String c s) = 1 + py_len s.
Proof. unfold py_len. cbn [Strings.String.length]. lia. Qed.

Lemma truthy_append_r (s : string) (c : ascii) (t : string) :
  truthy (s +:+ String c t) = true.
Proof. destruct s; reflexivity. Qed.

Lemma no_space_append (s t : string) :
  no_space (s +:+ t) = no_space s && no_space t.
Proof.
  induction s as [|c s IH]; [reflexivity|].
  rewrite append_cons. cbn [no_space]. rewrite IH, andb_assoc. reflexivity.
Qed.

(** [split()] returns words. *)
Lemma py_split_from_words (s word : string) :
  no_space word = true ->
  Forall (fun w => is_word w = true) (py_split_from word s).
Proof.
  revert word. induction s as [|c s IH]; intros word Hw; cbn [py_split_from].
  - destruct (truthy word) eqn:Ht; [|constructor].
    constructor; [|constructor]. unfold is_word. rewrite Ht, Hw. reflexivity.
  - destruct (is_space c) eqn:Hc.
    + apply Forall_app. split; [|apply IH; reflexivity].
      destruct (truthy word) eqn:Ht; [|constructor].
      constructor; [|constructor]. unfold is_word. rewrite Ht, Hw. reflexivity.
    + apply IH. rewrite no_space_append, Hw. cbn [no_space]. rewrite Hc. reflexivity.
Qed.

(** Reading a word and the blank after it. *)
Lemma py_split_from_word (w word rest : string) :
  no_space w = true ->
  py_split_from word (w +:+ String " " rest) =
    (if truthy (word +:+ w) then [word +:+ w] else []) ++ py_split_from EmptyString rest.
Proof.
  revert word. induction w as [|c w IH]; intros word Hw.
  - rewrite append_nil_l, append_nil_r. reflexivity.
  - cbn [no_space] in Hw. apply andb_true_iff in Hw as [Hc Hw].
    apply negb_true_iff in Hc.
    rewrite append_cons. cbn [py_split_from]. rewrite Hc.
    rewrite (IH _ Hw), append_assoc, append_cons, append_nil_l. reflexivity.
Qed.

Lemma py_split_lstrip (s : string) :
  py_split_from EmptyString (py_lstrip_by is_space s) = py_split_from EmptyString s.
Proof.
  induction s as [|c s IH]; [reflexivity|].
  cbn [py_lstrip_by]. destruct (is_space c) eqn:Hc; [|reflexivity].
  rewrite IH. cbn [py_split_from]. rewrite Hc. reflexivity.
Qed.

Lemma py_split_rstrip (s word : string) :
  py_split_from word (py_rstrip_by is_space s) = py_split_from word s.
Proof.
  revert word. induction s as [|c s IH]; intros word; [reflexivity|].
  cbn [py_rstrip_by py_split_from].
  destruct (py_rstrip_by is_space s) as [|d r] eqn:Er.
  - destruct (is_space c) eqn:Hc.
    + rewrite <- IH. cbn [py_split_from]. rewrite app_nil_r. reflexivity.
    + cbn [py_split_from]. rewrite Hc, <- IH. reflexivity.
  - cbn [py_split_from]. rewrite <- !IH. reflexivity.
Qed.

Lemma py_split_strip (s : string) : py_split (py_strip s) = py_split s.
Proof.
  unfold py_split, py_strip. rewrite py_split_rstrip. apply py_split_lstrip.
Qed.

Lemma py_rstrip_snoc (f : ascii -> bool) (s : string) (c : ascii) :
  f c = true ->
  py_rstrip_by f (s +:+ String c EmptyString) = py_rstrip_by f s.
Proof.
  intros Hc. induction s as [|a s IH].
  - rewrite append_nil_l. cbn [py_rstrip_by]. rewrite Hc. reflexivity.
  - rewrite append_cons. cbn [py_rstrip_by]. rewrite IH. reflexivity.
Qed.

Lemma py_rstrip_len (f : ascii -> bool) (s : string) :
  py_len (py_rstrip_by f s) <= py_len s.
Proof.
  induction s as [|a s IH]; [reflexivity|].
  cbn [py_rstrip_by]. destruct (py_rstrip_by f s) as [|d r].
  - destruct (f a); rewrite !py_len_cons in *; unfold py_len in *; cbn in *; lia.
  - rewrite !py_len_cons in *. lia.
Qed.

Lemma py_lstrip_snoc (f : ascii -> bool) (s : string) (c : ascii) :
  py_lstrip_by f (s +:+ String c EmptyString) = EmptyString \/
  exists t, py_lstrip_by f (s +:+ String c EmptyString) = t +:+ String c EmptyString /\
            py_len t <= py_len s.
Proof.
  induction s as [|a s IH].
  - rewrite append_nil_l. cbn [py_lstrip_by]. destruct (f c); [left; reflexivity|].
    right. exists EmptyString. split; [reflexivity|lia].
  - rewrite append_cons. cbn [py_lstrip_by]. destruct (f a).
    + destruct IH as [IH|(t & Ht & Hl)]; [left; exact IH|].
      right. exists t. split; [exact Ht|]. rewrite py_len_cons. lia.
    + right. exists (String a s). split; [reflexivity|lia].
Qed.

(** Stripping a line that ends with a blank removes at least this blank. *)
Lemma py_strip_len_snoc (s : string) :
  py_len (py_strip (s +:+ " ")) <= py_len s.
Proof.
  unfold py_strip.
  destruct (py_lstrip_snoc is_space s " ") as [->|(t & -> & Hl)].
  - pose proof (py_len_nonneg s).
    change (py_len (py_rstrip_by is_space EmptyString)) with 0. lia.
  - rewrite py_rstrip_snoc by reflexivity.
    pose proof (py_rstrip_len is_space t). lia.
Qed.

Lemma py_rstrip_word (w : string) :
  no_space w = true -> py_rstrip_by is_space w = w.
Proof.
  induction w as [|c w IH]; [reflexivity|]. cbn [no_space]. intros Hw.
  apply andb_true_iff in Hw as [Hc Hw]. apply negb_true_iff in Hc.
  cbn [py_rstrip_by]. rewrite (IH Hw). destruct w; [rewrite Hc|]; reflexivity.
Qed.

Lemma py_strip_word_blank (w : string) :
  is_word w = true -> py_strip (w +:+ " ") = w.
Proof.
  unfold is_word. intros Hw. apply andb_true_iff in Hw as [Ht Hs].
  unfold py_strip. destruct w as [|c w]; [discriminate|].
  cbn [no_space] in Hs. apply andb_true_iff in Hs as [Hc Hs].
  apply negb_true_iff in Hc.
  rewrite append_cons. cbn [py_lstrip_by]. rewrite Hc.
  rewrite <- append_cons, py_rstrip_snoc by reflexivity.
  apply py_rstrip_word. cbn [no_space]. rewrite Hc, Hs. reflexivity.
Qed.

End Strings.

Section Wrapping.
Import Curses.

(** [current_line] ends at a word boundary and holds the words [done]. *)
Lemma wrap_words_keeps (limit : Z) (words : list string) :
  Forall (fun w => is_word w = true) words ->
  forall (current_line : string) (done : list string),
    (forall rest, py_split_from EmptyString (current_line +:+ rest) =
                  done ++ py_split_from EmptyString rest) ->
    concat (map py_split (wrap_words limit words current_line)) = done ++ words.
Proof.
  induction 1 as [|word words Hword Hwords IH]; intros cur done Hcur.
  - cbn [wrap_words].
    assert (Hd : py_split cur = done).
    { unfold py_split. rewrite <- (append_nil_r cur), Hcur. apply app_nil_r. }
    destruct (truthy cur) eqn:Ht.
    + cbn [map concat]. rewrite py_split_strip, Hd, !app_nil_r. reflexivity.
    + destruct cur; [|discriminate]. cbn in Hd. subst done. reflexivity.
  - assert (Hw : no_space word = true).
    { unfold is_word in Hword. apply andb_true_iff in Hword. tauto. }
    assert (Ht : truthy word = true).
    { unfold is_word in Hword. apply andb_true_iff in Hword. tauto. }
    cbn [wrap_words].
    destruct (py_len cur + py_len word + 1 <=? limit).
    + rewrite (IH (cur +:+ word +:+ " ") (done ++ [word])).
      * rewrite <- app_assoc. reflexivity.
      * intros rest. rewrite !append_assoc, Hcur.
        rewrite append_cons, append_nil_l, (py_split_from_word word EmptyString rest Hw).
        rewrite append_nil_l, Ht, <- app_assoc. reflexivity.
    + rewrite map_app, concat_app.
      rewrite (IH (word +:+ " ") [word]).
      * assert (Hd : py_split cur = done).
        { unfold py_split. rewrite <- (append_nil_r cur), Hcur. apply app_nil_r. }
        destruct (truthy cur) eqn:Hc.
        -- cbn [map concat]. rewrite py_split_strip, Hd, app_nil_r. reflexivity.
        -- destruct cur; [|discriminate]. cbn in Hd. subst done. reflexivity.
      * intros rest. rewrite append_assoc, append_cons, append_nil_l.
        rewrite (py_split_from_word word EmptyString rest Hw).
        rewrite append_nil_l, Ht. reflexivity.
Qed.

Lemma content_of_user_turn (t : string) :
  speaker_of (user_turn t) = "You" /\
  py_split (content_of (user_turn t)) = py_split t.
Proof.
  unfold speaker_of, content_of, user_turn.
  change ("You: " +:+ t) with (String "Y" (String "o" (String "u" (String ":" (String " " t))))).
  destruct t; split; reflexivity.
Qed.

Lemma content_of_assistant_turn (a : string) :
  speaker_of (assistant_turn a) = "Assistant" /\
  content_of (assistant_turn a) = a.
Proof.
  unfold speaker_of, content_of, assistant_turn.
  change ("Assistant: " +:+ a) with (String "A" ("ssistant: " +:+ a)).
  split; reflexivity.
Qed.

(** X12: wrapping a transcript entry for display loses nothing: the words of
    the wrapped lines, read line after line, are the words of the message
    the turn was made from, in their order, whatever the width. *)
Theorem wrapped_content_words (available_width : Z) (text : string) :
  concat (map py_split (wrapped_content available_width (user_turn text))) =
    py_split text /\
  concat (map py_split (wrapped_content available_width (assistant_turn text))) =
    py_split text.
Proof.
  unfold wrapped_content.
  destruct (content_of_user_turn text) as [-> ->].
  destruct (content_of_assistant_turn text) as [-> ->].
  split.
  - apply (wrap_words_keeps _ (py_split text)
             (py_split_from_words text EmptyString eq_refl) EmptyString []).
    intros rest. reflexivity.
  - apply (wrap_words_keeps _ (py_split text)
             (py_split_from_words text EmptyString eq_refl) EmptyString []).
    intros rest. reflexivity.
Qed.

Lemma wrap_words_width (limit : Z) (all : list string) (words : list string) :
  Forall (fun w => is_word w = true) words ->
  incl words all ->
  forall current_line : string,
    current_line = EmptyString \/
    (exists line, current_line = line +:+ " " /\ py_len current_line <= limit) \/
    (exists w, In w all /\ is_word w = true /\ current_line = w +:+ " ") ->
    Forall (fun line => py_len line < limit \/ In line all)
      (wrap_words limit words current_line).
Proof.
  induction 1 as [|word words Hword Hwords IH]; intros Hincl cur Hcur.
  - cbn [wrap_words]. destruct (truthy cur) eqn:Ht; [|constructor].
    constructor; [|constructor].
    destruct Hcur as [->|[(line & -> & Hl)|(w & Hin & Hw & ->)]].
    + discriminate.
    + left. pose proof (py_strip_len_snoc line).
      rewrite py_len_append in Hl. change (py_len " ") with 1 in Hl. lia.
    + right. rewrite (py_strip_word_blank w Hw). exact Hin.
  - cbn [wrap_words].
    assert (Hincl' : incl words all).
    { intros x Hx. apply Hincl. right. exact Hx. }
    destruct (py_len cur + py_len word + 1 <=? limit) eqn:Hfit.
    + apply (IH Hincl'). right. left. exists (cur +:+ word).
      split; [rewrite append_assoc; reflexivity|].
      apply Z.leb_le in Hfit. rewrite !py_len_append. change (py_len " ") with 1. lia.
    + apply Forall_app. split.
      * destruct (truthy cur) eqn:Ht; [|constructor].
        constructor; [|constructor].
        destruct Hcur as [->|[(line & -> & Hl)|(w & Hin & Hw & ->)]].
        -- discriminate.
        -- left. pose proof (py_strip_len_snoc line).
           rewrite py_len_append in Hl. change (py_len " ") with 1 in Hl. lia.
        -- right. rewrite (py_strip_word_blank w Hw). exact Hin.
      * apply (IH Hincl'). right. right. exists word.
        split; [apply Hincl; left; reflexivity|]. split; [exact Hword|reflexivity].
Qed.

(** X13: a wrapped line is shorter than the limit, unless it is a single word
    of the message that is too long by itself. *)
Theorem wrapped_line_width (limit : Z) (words : list string) :
  Forall (fun w => is_word w = true) words ->
  Forall (fun line => py_len line < limit \/ In line words)
    (wrap_words limit words EmptyString).
Proof.
  intros Hw. apply (wrap_words_width limit words words Hw).
  - intros x Hx. exact Hx.
  - left. reflexivity.
Qed.

Lemma wrapped_line_width_witness :
  Forall (fun line => py_len line < 6 \/ In line ["so"; "long"; "goodbye"])
    (wrap_words 6 ["so"; "long"; "goodbye"] EmptyString).
Proof.
  apply (wrapped_line_width 6 ["so"; "long"; "goodbye"]).
  repeat constructor.
Defined.

End Wrapping.

Section Display.
Import Curses ChatUI.

Lemma take_clip {A} (k : nat) (l : list A) :
  take (Nat.min k (length l)) l = take k l.
Proof.
  destruct (Nat.le_ge_cases k (length l)) as [H|H].
  - rewrite Nat.min_l by exact H. reflexivity.
  - rewrite Nat.min_r by exact H. rewrite !take_ge; [reflexivity| |]; lia.
Qed.

(** X14: the window [display_chat] draws.  For a window of [max_lines] rows
    and an offset that is not negative it is the [max_lines] entries that
    end [scroll_offset] entries before the last one; an offset beyond the
    top is harmless and shows the first entries. *)
Theorem drawn_window {A} (formatted_lines : list A) (max_lines scroll_offset : Z) :
  0 <= max_lines ->
  0 <= scroll_offset ->
  drawn formatted_lines max_lines scroll_offset =
    take (Z.to_nat max_lines)
      (drop (length formatted_lines - Z.to_nat max_lines - Z.to_nat scroll_offset)
         formatted_lines) /\
  (Z.of_nat (length formatted_lines) <= max_lines + scroll_offset ->
   drawn formatted_lines max_lines scroll_offset =
     take (Z.to_nat max_lines) formatted_lines).
Proof.
  intros Hn Ho.
  assert (Hmain : drawn formatted_lines max_lines scroll_offset =
    take (Z.to_nat max_lines)
      (drop (length formatted_lines - Z.to_nat max_lines - Z.to_nat scroll_offset)
         formatted_lines)).
  { rewrite <- (Z2Nat.id max_lines Hn) at 1.
    rewrite <- (Z2Nat.id scroll_offset Ho) at 1.
    generalize (Z.to_nat max_lines) (Z.to_nat scroll_offset). intros n o.
    unfold drawn, py_slice, clip_index, start_idx.
    set (len := length formatted_lines).
    replace (Z.max 0 (Z.of_nat len - Z.of_nat n - Z.of_nat o))
      with (Z.of_nat (len - n - o)) by lia.
    replace (Z.of_nat (len - n - o) + Z.of_nat n)
      with (Z.of_nat (len - n - o + n)) by lia.
    destruct (Z.of_nat (len - n - o) <? 0) eqn:E1; [apply Z.ltb_lt in E1; lia|].
    destruct (Z.of_nat (len - n - o + n) <? 0) eqn:E2; [apply Z.ltb_lt in E2; lia|].
    rewrite !Nat2Z.id.
    replace (Nat.min (len - n - o) len) with (len - n - o)%nat by lia.
    rewrite take_take.
    rewrite <- (take_clip n (drop (len - n - o) formatted_lines)).
    rewrite length_drop. fold len. f_equal. lia. }
  split; [exact Hmain|].
  intros Hover. rewrite Hmain.
  replace (length formatted_lines - Z.to_nat max_lines - Z.to_nat scroll_offset)%nat
    with 0%nat by lia.
  reflexivity.
Qed.

Lemma drawn_window_witness :
  drawn [1; 2; 3; 4; 5; 6] 3 1 = [3; 4; 5] /\
  drawn [1; 2; 3; 4; 5; 6] 3 10 = [1; 2; 3].
Proof.
  destruct (drawn_window [1; 2; 3; 4; 5; 6] 3 1) as [H1 _]; [lia | lia |].
  destruct (drawn_window [1; 2; 3; 4; 5; 6] 3 10) as [_ H2]; [lia | lia |].
  split; [exact H1 | apply H2; cbn; lia].
Defined.

Lemma key_up_keeps (s : screen) :
  scroll_in_range (state (fst s)) ->
  chat_history (state (fst (key_up s))) = chat_history (state (fst s)) /\
  scroll_in_range (state (fst (key_up s))).
Proof.
  intros Hr. unfold key_up.
  destruct (scroll_offset (state (fst s)) <?
            Z.of_nat (length (chat_history (state (fst s)))) * 2) eqn:E.
  - apply Z.ltb_lt in E. destruct s as [[st l [h so rs rf rp lu pr ptt sr] au tr] ui].
    unfold scroll_in_range in *. cbn in *. split; [reflexivity|lia].
  - split; [reflexivity|exact Hr].
Qed.

Lemma iter_key_up_keeps (k : nat) (s : screen) :
  scroll_in_range (state (fst s)) ->
  chat_history (state (fst (Nat.iter k key_up s))) = chat_history (state (fst s)) /\
  scroll_in_range (state (fst (Nat.iter k key_up s))).
Proof.
  intros Hr. induction k as [|k [IHh IHr]].
  - split; [reflexivity|exact Hr].
  - change (Nat.iter (S k) key_up s) with (key_up (Nat.iter k key_up s)).
    destruct (key_up_keeps _ IHr) as [Hh Hs]. split; [rewrite Hh; exact IHh|exact Hs].
Qed.

(** X15: scrolling is capped at twice the number of turns, but a turn can wrap
    into more than two lines.  When the transcript is formatted into more
    than [max_lines + 2 * len(chat_history)] lines, no number of KEY_UP
    presses brings the first line into the window. *)
Theorem scroll_cannot_reach_top (k : nat) (s : screen) (available_width max_lines : Z) :
  scroll_in_range (state (fst s)) ->
  max_lines + 2 * Z.of_nat (length (chat_history (state (fst s)))) <
    Z.of_nat (formatted_total available_width (chat_history (state (fst s)))) ->
  0 < start_idx
        (formatted_total available_width
           (chat_history (state (fst (Nat.iter k key_up s)))))
        max_lines
        (scroll_offset (state (fst (Nat.iter k key_up s)))).
Proof.
  intros Hr Hlong. destruct (iter_key_up_keeps k s Hr) as [Hh Hs].
  rewrite Hh. unfold scroll_in_range in Hs. rewrite Hh in Hs. unfold start_idx. lia.
Qed.

Lemma scroll_cannot_reach_top_witness :
  0 < start_idx
        (formatted_total 12
           (chat_history (state (fst (Nat.iter 5 key_up
              (run [Submit (answering "gg hh ii jj") "aa bb cc dd ee ff"] fresh, []))))))
        2
        (scroll_offset (state (fst (Nat.iter 5 key_up
              (run [Submit (answering "gg hh ii jj") "aa bb cc dd ee ff"] fresh, []))))).
Proof.
  apply (scroll_cannot_reach_top 5
           (run [Submit (answering "gg hh ii jj") "aa bb cc dd ee ff"] fresh, []) 12 2).
  - vm_compute. split; discriminate.
  - vm_compute. reflexivity.
Defined.

Lemma length_string_of_list_ascii (l : list ascii) :
  Strings.String.length (Strings.String.string_of_list_ascii l) = length l.
Proof. induction l as [|c l IH]; [reflexivity|]. cbn. rewrite IH. reflexivity. Qed.

Lemma length_list_ascii_of_string (s : string) :
  length (Strings.String.list_ascii_of_string s) = Strings.String.length s.
Proof. induction s as [|c s IH]; [reflexivity|]. cbn. rewrite IH. reflexivity. Qed.

Lemma py_len_upto (stop : Z) (s : string) :
  0 <= stop -> py_len (py_upto stop s) = Z.min stop (py_len s).
Proof.
  intros Hs. unfold py_len, py_upto, py_slice, clip_index.
  rewrite length_string_of_list_ascii, length_take, length_drop,
    length_list_ascii_of_string.
  destruct (stop <? 0) eqn:E; [apply Z.ltb_lt in E; lia|].
  cbn [Z.ltb Z.compare Z.to_nat]. lia.
Qed.

(** X16: on a status window at least 7 columns wide the text written always
    fits between the borders, and a message that fits is written as it is. *)
Theorem update_status_fits (w : Z) (message written : string) :
  7 <= w ->
  update_status w message = Some written ->
  py_len written <= w - 4 /\
  (py_len message <= w - 4 -> written = message).
Proof.
  intros Hw. unfold update_status.
  destruct (truthy message); [|discriminate].
  destruct (w - 4 <? py_len message) eqn:E; intros [= <-].
  - apply Z.ltb_lt in E. split; [|lia].
    rewrite py_len_append, py_len_upto by lia.
    change (py_len "...") with 3. lia.
  - apply Z.ltb_ge in E. split; [exact E|reflexivity].
Qed.

Lemma update_status_fits_witness :
  py_len "Ready to ch..." <= 18 - 4.
Proof.
  apply (update_status_fits 18 "Ready to chat! Press SPACE to start recording."
           "Ready to ch...").
  - lia.
  - vm_compute. reflexivity.
Defined.

(** X17: the arrow keys of a menu keep [current_row] an index of [options],
    so [options[current_row]] is defined when Enter is pressed. *)
Theorem menu_row_in_range (options : nat) (keys : list arrow) (current_row : Z) :
  0 <= current_row < Z.of_nat options ->
  0 <= fold_left (menu_key options) keys current_row < Z.of_nat options.
Proof.
  revert current_row. induction keys as [|k keys IH]; intros row Hr; cbn [fold_left].
  - exact Hr.
  - apply IH. destruct k; unfold menu_key, menu_key_up, menu_key_down.
    + destruct (0 <? row) eqn:E; [apply Z.ltb_lt in E|]; lia.
    + destruct (row <? Z.of_nat options - 1) eqn:E; [apply Z.ltb_lt in E|]; lia.
Qed.

Lemma menu_row_in_range_witness :
  0 <= fold_left (menu_key 5) [ArrowUp; ArrowDown; ArrowDown; ArrowDown; ArrowDown;
                               ArrowDown; ArrowDown] 0 < 5.
Proof.
  apply (menu_row_in_range 5). lia.
Defined.

End Display.

(** * The event loop of [start_chat] *)
Section EventLoop.
Import Whisper Curses ChatUI StartChat.

Lemma initialize_models_effect (w : loading) (m : ChatManager) :
  exists (b : bool) (new : list event),
    initialize_models w m =
      (Returned b,
       mkChatManager (settings m) (on_chat_updated m) (state m) (audio m)
         (trace m ++ new)).
Proof.
  destruct m as [s l st au tr]. destruct w as [o1 o2 o3].
  unfold initialize_models, path_join, outside. unfold_M.
  cbn -[lookup].
  destruct (s !! "System Prompt") as [[p|n]|]; cbn -[lookup];
    destruct (s !! "LLM Model") as [[name|k]|]; cbn -[lookup];
    try (destruct o1; cbn -[lookup]; try destruct o2; cbn -[lookup];
         try destruct o3; cbn -[lookup]);
    rewrite <- ?app_assoc; eexists _, _; reflexivity.
Qed.

Lemma restart_effect (w : loading) (m : ChatManager) :
  exists (b : bool) (m1 : ChatManager),
    (status_callback "Restarting models..." ;; initialize_models w) m =
      (Returned b, m1) /\
    state m1 = state m.
Proof.
  unfold bind, status_callback at 1, emit at 1.
  match goal with |- context [initialize_models w ?m0] =>
    destruct (initialize_models_effect w m0) as (b & new & ->) end.
  eexists _, _. split; reflexivity.
Qed.

Lemma process_voice_input_mode (e : engines) (t : string) (m : ChatManager) :
  is_ptt_mode (state (snd (process_voice_input e t m))) = is_ptt_mode (state m) /\
  recording_stream (state (snd (process_voice_input e t m))) =
    recording_stream (state m).
Proof.
  destruct (truthy t) eqn:Ht.
  - destruct (process_voice_input_effect e t m Ht) as (b & rest & ->).
    split; reflexivity.
  - rewrite process_voice_input_empty by exact Ht. split; reflexivity.
Qed.

Lemma start_recording_mode (opens : bool) (m : ChatManager) :
  is_ptt_mode (state (snd (start_recording opens m))) = is_ptt_mode (state m).
Proof.
  destruct (recording_stream (state m)) as [stream|] eqn:Hs.
  - rewrite start_recording_busy by (left; congruence). reflexivity.
  - destruct (processing (state m)) eqn:Hp.
    + rewrite start_recording_busy by (right; exact Hp). reflexivity.
    + rewrite (start_recording_idle opens m Hs Hp). destruct opens; reflexivity.
Qed.

Lemma last_snoc_event (l : list event) (ev : event) : last (l ++ [ev]) = Some ev.
Proof. apply last_snoc. Qed.

(** Pressing SPACE while a capture is active. *)
Lemma key_space_active (t : teardown) (heard : string) (e : engines) (opens : bool)
    (s : screen) :
  recording_stream (state (fst s)) <> None ->
  is_ptt_mode (state (fst (key_space opens t heard e s))) =
    is_ptt_mode (state (fst s)) /\
  recording_stream (state (fst (key_space opens t heard e s))) = None /\
  last (trace (fst (key_space opens t heard e s))) = Some (Status "Ready to chat!") /\
  exists more,
    snd (key_space opens t heard e s) = snd s ++ UpdateHeader false true :: more /\
    blocking more = true.
Proof.
  intros Hs. unfold key_space.
  destruct (recording_stream (state (fst s))) as [stream|] eqn:Es; [|congruence].
  rewrite (stop_recording_active t (fst s)) by congruence.
  set (m1 := mkChatManager _ _ _ _ _).
  destruct (handed_back _ _) as [[a r]|].
  - unfold transcribe. unfold_M. cbn [fst snd].
    match goal with |- context [process_voice_input e heard ?m2] =>
      pose proof (process_voice_input_mode e heard m2) as [Hm Hr];
      destruct (process_voice_input e heard m2) as [[[|]|msg] m3] eqn:Ep
    end;
      cbn [fst snd state trace] in *; rewrite ?Hm, ?Hr; subst m1; cbn [state];
      (split; [reflexivity|]); (split; [reflexivity|]);
      (split; [apply last_snoc_event|]);
      rewrite <- ?app_assoc; eexists; (split; [reflexivity|reflexivity]).
  - unfold_M. cbn [fst snd state trace]. subst m1.
    split; [reflexivity|]. split; [reflexivity|].
    split; [apply last_snoc_event|].
    exists []. split; [reflexivity|reflexivity].
Qed.

Lemma key_space_idle (t : teardown) (heard : string) (e : engines) (opens : bool)
    (s : screen) :
  recording_stream (state (fst s)) = None ->
  is_ptt_mode (state (fst (key_space opens t heard e s))) =
    is_ptt_mode (state (fst s)) /\
  exists more,
    snd (key_space opens t heard e s) = snd s ++ more /\ blocking more = true.
Proof.
  intros Hs. unfold key_space. rewrite Hs.
  pose proof (start_recording_mode opens (fst s)) as Hm.
  destruct (start_recording opens (fst s)) as [[[|]|msg] m1];
    cbn [fst snd] in *.
  - unfold_M. cbn [fst snd state]. split; [exact Hm|].
    eexists. split; reflexivity.
  - split; [exact Hm|]. exists []. rewrite app_nil_r. split; reflexivity.
  - split; [exact Hm|]. exists []. rewrite app_nil_r. split; reflexivity.
Qed.

Lemma key_space_mode (t : teardown) (heard : string) (e : engines) (opens : bool)
    (s : screen) :
  is_ptt_mode (state (fst (key_space opens t heard e s))) =
    is_ptt_mode (state (fst s)) /\
  exists more,
    snd (key_space opens t heard e s) = snd s ++ more /\ blocking more = true.
Proof.
  destruct (recording_stream (state (fst s))) as [stream|] eqn:Es.
  - destruct (key_space_active t heard e opens s) as (Hm & _ & _ & more & Hu & Hb);
      [congruence|].
    split; [exact Hm|]. eexists. split; [exact Hu|exact Hb].
  - apply key_space_idle. exact Es.
Qed.

Lemma positions_after_cases (ui : list ui_call) :
  positions_after ui = [] \/
  exists is_ptt_mode, positions_after ui = button_positions is_ptt_mode.
Proof.
  unfold positions_after.
  induction ui as [|c ui IH] using rev_ind; [left; reflexivity|].
  rewrite fold_left_app. cbn [fold_left].
  destruct c; [right; eexists; reflexivity | exact IH | exact IH].
Qed.

Lemma click_branch_after (ui : list ui_call) (mouse_y mouse_x : Z) :
  let b := click_branch (handle_button_click (positions_after ui) mouse_y mouse_x) in
  b = ClickRestart \/ b = ClickSettings \/ b = ClickStop \/ b = ClickNothing.
Proof.
  destruct (positions_after_cases ui) as [->|[ptt ->]].
  - cbn. tauto.
  - apply click_branch_live.
Qed.

Lemma deliver_effect (in_data : pcm) (m : ChatManager) :
  is_ptt_mode (state (snd (deliver in_data m))) = is_ptt_mode (state m) /\
  (recording_stream (state (snd (deliver in_data m))) = recording_stream (state m)) /\
  audio (snd (deliver in_data m)) = audio m /\
  (capture_tracked m -> capture_tracked (snd (deliver in_data m))).
Proof.
  destruct m as [s l [h so rs rf rp lu pr ptt sr] au tr].
  unfold deliver, update, capture_tracked. cbn.
  destruct rf; cbn; repeat split; auto.
Qed.

Lemma arrived_effect (frames : list pcm) (m : ChatManager) :
  let m' := fold_left (fun m in_data => snd (deliver in_data m)) frames m in
  is_ptt_mode (state m') = is_ptt_mode (state m) /\
  recording_stream (state m') = recording_stream (state m) /\
  audio m' = audio m /\
  (capture_tracked m -> capture_tracked m').
Proof.
  cbv zeta. revert m. induction frames as [|f frames IH]; intros m; cbn [fold_left].
  - repeat split; auto.
  - destruct (IH (snd (deliver f m))) as (H1 & H2 & H3 & H4).
    destruct (deliver_effect f m) as (G1 & G2 & G3 & G4).
    rewrite H1, H2, H3, G1, G2, G3. repeat split; auto.
Qed.

Lemma cleanup_state (t : teardown) (m : ChatManager) :
  state (snd (cleanup t m)) = state m.
Proof.
  destruct m as [s l st au tr]. unfold cleanup. unfold_M.
  cbn -[Whisper.stop_recording].
  destruct (recording_stream st); [|reflexivity].
  cbn -[Whisper.stop_recording].
  destruct (Whisper.stop_recording _ _ _ _ _). reflexivity.
Qed.

Lemma key_up_mode (s : screen) :
  is_ptt_mode (state (fst (key_up s))) = is_ptt_mode (state (fst s)) /\
  exists more, snd (key_up s) = snd s ++ more /\ blocking more = true.
Proof.
  unfold key_up.
  destruct (scroll_offset (state (fst s)) <? _).
  - cbn. split; [reflexivity|]. eexists. split; reflexivity.
  - split; [reflexivity|]. exists []. rewrite app_nil_r. split; reflexivity.
Qed.

Lemma key_down_mode (s : screen) :
  is_ptt_mode (state (fst (key_down s))) = is_ptt_mode (state (fst s)) /\
  exists more, snd (key_down s) = snd s ++ more /\ blocking more = true.
Proof.
  unfold key_down.
  destruct (0 <? scroll_offset (state (fst s))).
  - cbn. split; [reflexivity|]. eexists. split; reflexivity.
  - split; [reflexivity|]. exists []. rewrite app_nil_r. split; reflexivity.
Qed.

Lemma blocking_app (a b : list ui_call) :
  blocking (a ++ b) = blocking a && blocking b.
Proof. apply forallb_app. Qed.

(** One iteration keeps push-to-talk mode. *)
Lemma step_ptt (i : input) (s : screen) :
  is_ptt_mode (state (fst s)) = true ->
  blocking (snd s) = true ->
  is_ptt_mode (state (fst (screen_of (step i s)))) = true /\
  blocking (snd (screen_of (step i s))) = true /\
  forall s', step i s <> Waiting s'.
Proof.
  intros Hp Hb. unfold step.
  destruct (arrived_effect (arrived i) (fst s)) as (Ha & _ & _ & _). cbv zeta in Ha.
  set (m0 := fold_left _ (arrived i) (fst s)) in *.
  rewrite Hp in Ha.
  unfold branch_of. cbn [fst snd]. rewrite Ha. cbn [negb andb].
  destruct (key i =? KEY_MOUSE).
  { unfold on_mouse. cbn [fst snd].
    destruct (getmouse i) as [[[mx my] [|]]|];
      [|repeat split; auto; discriminate..].
    destruct (click_branch_after (snd s) my mx) as [H|[H|[H|H]]];
      cbv zeta in H; rewrite H; unfold click_on; cbn [fst snd].
    - destruct (restart_effect (reload i) m0) as (b & m1 & -> & Hst).
      destruct b.
      + rewrite clear_history_effect. cbn [fst snd screen_of state].
        unfold status_callback, emit. cbn [fst snd state is_ptt_mode set_scroll_offset
          set_chat_history]. unfold show. rewrite blocking_app, Hb, Hst.
        repeat split; auto; discriminate.
      + cbn [fst snd screen_of state]. rewrite Hst. repeat split; auto; discriminate.
    - cbn [screen_of fst snd]. repeat split; auto; discriminate.
    - rewrite stop_processing_effect. cbn [screen_of fst snd].
      destruct (processing (state m0)); cbn [state]; repeat split; auto; discriminate.
    - cbn [screen_of fst snd]. repeat split; auto; discriminate. }
  destruct (key i =? 32).
  { cbn [andb screen_of].
    destruct (key_space_mode (closes i) (heard i) (engines_of i) (opens i) (m0, snd s))
      as (Hm & more & Hu & Hmore).
    cbn [fst snd] in *. rewrite Hm, Hu, blocking_app, Hb, Hmore.
    repeat split; auto; discriminate. }
  cbn [andb].
  destruct (key i =? 27).
  { unfold on_escape. cbn [screen_of fst snd]. rewrite cleanup_state, blocking_app, Hb.
    repeat split; auto; discriminate. }
  destruct (key i =? KEY_UP).
  { cbn [screen_of]. destruct (key_up_mode (m0, snd s)) as (Hm & more & Hu & Hmore).
    cbn [fst snd] in *. rewrite Hm, Hu, blocking_app, Hb, Hmore.
    repeat split; auto; discriminate. }
  destruct (key i =? KEY_DOWN).
  { cbn [screen_of]. destruct (key_down_mode (m0, snd s)) as (Hm & more & Hu & Hmore).
    cbn [fst snd] in *. rewrite Hm, Hu, blocking_app, Hb, Hmore.
    repeat split; auto; discriminate. }
  cbn [screen_of fst snd]. repeat split; auto; discriminate.
Qed.

Lemma loop_ptt (inputs : list input) (s : screen) :
  is_ptt_mode (state (fst s)) = true ->
  blocking (snd s) = true ->
  is_ptt_mode (state (fst (screen_of (loop inputs s)))) = true /\
  blocking (snd (screen_of (loop inputs s))) = true /\
  forall s', loop inputs s <> Waiting s'.
Proof.
  revert s. induction inputs as [|i inputs IH]; intros s Hp Hb; cbn [loop].
  - repeat split; auto; discriminate.
  - destruct (step_ptt i s Hp Hb) as (H1 & H2 & H3).
    destruct (step i s) as [s1|s1|s1]; cbn [screen_of] in *.
    + apply IH; assumption.
    + repeat split; auto; discriminate.
    + exfalso. apply (H3 s1). reflexivity.
Qed.

(** X18: The chat never leaves push-to-talk mode.  The manager starts in it,
    the only call of [toggle_ptt_mode] is behind the comparison
    [clicked == 'mode'], and no button has that key: whatever the keys,
    the clicks, the devices and the models do, the mode stays push-to-talk,
    [stdscr.nodelay(1)] is never called and the passive capture is never
    entered. *)
Theorem start_chat_stays_push_to_talk (w : loading)
    (selected_settings : gmap string pyval) (inputs : list input) :
  let p := start_chat w selected_settings inputs in
  is_ptt_mode (state (fst (screen_of p))) = true /\
  blocking (snd (screen_of p)) = true /\
  forall s, p <> Waiting s.
Proof.
  cbv zeta. unfold start_chat.
  destruct (initialize_models_effect w (listen (init selected_settings)))
    as (b & new & ->).
  destruct b.
  - apply loop_ptt; reflexivity.
  - cbn. repeat split; auto; discriminate.
Qed.

(** X19: SPACE during a capture ends it, whatever the device and the models do:
    the handle is cleared, the header is redrawn as not recording and the
    last status is the readiness message.  When nothing usable was
    captured the transcript is untouched and the user is told so, with a
    pause of two seconds. *)
Theorem space_key_ends_capture (t : teardown) (heard : string) (e : engines)
    (opens : bool) (s : screen) :
  recording_stream (state (fst s)) <> None ->
  let s' := key_space opens t heard e s in
  recording_stream (state (fst s')) = None /\
  last (trace (fst s')) = Some (Status "Ready to chat!") /\
  (fst (Chat.stop_recording t (fst s)) = Returned None ->
   chat_history (state (fst s')) = chat_history (state (fst s)) /\
   snd s' = snd s ++ [UpdateHeader false true] /\
   drop (length (trace (fst s))) (trace (fst s')) =
     [Status "Processing audio..."; Status "No audio recorded. Try again.";
      Sleep 2; Status "Ready to chat!"]).
Proof.
  intros Hs. cbv zeta.
  destruct (key_space_active t heard e opens s Hs) as (_ & Hr & Hl & _).
  split; [exact Hr|]. split; [exact Hl|].
  unfold key_space.
  destruct (recording_stream (state (fst s))) as [stream|] eqn:Es; [|congruence].
  destruct (Chat.stop_recording t (fst s)) as [result m1] eqn:E.
  rewrite (stop_recording_active t (fst s)) in E by congruence.
  cbn [fst]. intros ->. injection E as E1 E2. subst m1.
  unfold_M. cbn [fst snd state trace chat_history set_recording].
  split; [reflexivity|]. split; [reflexivity|].
  rewrite <- !app_assoc. apply drop_app_length.
Qed.

Lemma space_key_ends_capture_witness :
  let s := (run [StartCapture true] fresh, [UpdateHeader true true]) in
  recording_stream
    (state (fst (key_space true Clean "hello" (answering "hi") s))) = None /\
  chat_history (state (fst (key_space true Clean "hello" (answering "hi") s))) = [].
Proof.
  intros s.
  pose proof (space_key_ends_capture Clean "hello" (answering "hi") true s) as H.
  destruct H as (Hr & _ & Hn).
  - discriminate.
  - split; [exact Hr|]. destruct Hn as (Hh & _); [reflexivity|exact Hh].
Defined.

(** X20: Two ways out of the chat.  ESC calls [cleanup], which closes the stream
    of an active capture; the Settings button returns at once, and the
    stream stays open. *)
Theorem settings_exit_skips_cleanup (i : input) (s : screen) (b : bool)
    (mouse_x : Z) :
  is_ptt_mode (state (fst s)) = true ->
  positions_after (snd s) = button_positions b ->
  capture_tracked (fst s) ->
  recording_stream (state (fst s)) <> None ->
  (key i = 27 -> closes i = Clean ->
   exists s', step i s = Exit s' /\ streams_open (audio (fst s')) = 0%nat) /\
  (key i = KEY_MOUSE -> getmouse i = Some (mouse_x, 1, true) ->
   31 <= mouse_x < 43 ->
   exists s', step i s = Exit s' /\ streams_open (audio (fst s')) = 1%nat).
Proof.
  intros Hp Hpos Ht Hs.
  destruct (arrived_effect (arrived i) (fst s)) as (Ha & Hr & Hau & Hct).
  cbv zeta in *. specialize (Hct Ht).
  assert (Hopen : streams_open (audio (fst s)) = 1%nat).
  { unfold capture_tracked in Ht.
    destruct (recording_stream (state (fst s))), (recording_frames (state (fst s))),
      (recording_pyaudio (state (fst s))), (sample_rate (state (fst s)));
      try contradiction; try congruence. }
  split.
  - intros Hk Hc. unfold step, branch_of. cbn [fst snd].
    set (m0 := fold_left _ (arrived i) (fst s)) in *.
    rewrite Ha, Hp, Hk. cbn. unfold on_escape. cbn [fst snd].
    eexists. split; [reflexivity|]. cbn [fst].
    rewrite (cleanup_tracked (closes i) m0 Hct) by (rewrite Hr; exact Hs).
    cbn [snd audio]. rewrite Hc, Hau. cbn. rewrite Hopen. reflexivity.
  - intros Hk Hm Hx. unfold step, branch_of. cbn [fst snd].
    set (m0 := fold_left _ (arrived i) (fst s)) in *.
    rewrite Hk. cbn. unfold on_mouse. cbn [fst snd]. rewrite Hm, Hpos.
    rewrite button_positions_laid_out.
    rewrite (laid_out_hit (buttons b) 2 "settings" 1 31 12 mouse_x);
      [|destruct b; vm_compute; tauto|lia].
    cbn. eexists. split; [reflexivity|]. cbn [fst]. rewrite Hau. exact Hopen.
Qed.

Lemma settings_exit_skips_cleanup_witness :
  let s := (run [StartCapture true] fresh, [UpdateHeader true true]) in
  let i := mkInput 409 (Some (35, 1, true)) [] (mkLoading (Returned tt) (Returned tt)
             (Returned tt)) true Clean "hello" (answering "hi") true [] in
  exists s', step i s = Exit s' /\ streams_open (audio (fst s')) = 1%nat.
Proof.
  intros s i.
  apply (settings_exit_skips_cleanup i s true 35).
  - reflexivity.
  - reflexivity.
  - reflexivity.
  - discriminate.
  - reflexivity.
  - reflexivity.
  - lia.
Defined.

End EventLoop.

(** * [LlamaChat] as the generation stage *)
Section LlamaStage.
Import Llama.

Lemma chat_grows (completion : list message -> outcome string)
    (messages : list message) (user_message : string) :
  exists reply : list message,
    snd (chat completion messages user_message) =
      messages ++ Message "user" user_message :: reply /\
    List.filter (has_role "user") reply = [] /\
    (length reply <= 1)%nat.
Proof.
  unfold chat. destruct (completion _) as [a|msg]; cbn [snd].
  - exists [Message "assistant" a]. rewrite <- app_assoc. repeat split. cbn. lia.
  - exists []. repeat split. cbn. lia.
Qed.

(** X21: The history of a [LlamaChat] only grows, the system prompt stays its
    first entry, every user message is recorded, in order, and at most one
    reply is recorded per user message. *)
Theorem converse_history (completion : list message -> outcome string)
    (system_prompt : string) (user_messages : list string) :
  let messages := converse completion (init system_prompt) user_messages in
  head messages = Some (Message "system" system_prompt) /\
  map content (List.filter (has_role "user") messages) = user_messages /\
  (length messages <= 1 + 2 * length user_messages)%nat.
Proof.
  cbv zeta.
  assert (Hgen : forall us msgs,
    exists rest,
      converse completion msgs us = msgs ++ rest /\
      map content (List.filter (has_role "user") rest) = us /\
      (length rest <= 2 * length us)%nat).
  { induction us as [|u us IH]; intros msgs.
    - exists []. rewrite app_nil_r. repeat split. cbn. lia.
    - change (converse completion msgs (u :: us))
        with (converse completion (snd (chat completion msgs u)) us).
      destruct (chat_grows completion msgs u) as (reply & -> & Hf & Hl).
      destruct (IH (msgs ++ Message "user" u :: reply)) as (rest & -> & Hu & Hn).
      exists (Message "user" u :: reply ++ rest).
      rewrite <- app_assoc. split; [reflexivity|]. split.
      + cbn [List.filter]. change (has_role "user" (Message "user" u)) with true.
        cbn [map content]. rewrite List.filter_app, Hf. cbn [app]. rewrite Hu.
        reflexivity.
      + cbn [length]. rewrite length_app. lia. }
  destruct (Hgen user_messages (init system_prompt)) as (rest & -> & Hu & Hn).
  split; [reflexivity|]. split.
  - unfold init. cbn. exact Hu.
  - unfold init. cbn [length app]. lia.
Qed.

Lemma engines_over_returns (completion : list message -> outcome string)
    (messages : list message) (e : engines) (text : string) :
  exists reply, llm_chat (engines_over completion messages e) text = Returned reply.
Proof. eexists. reflexivity. Qed.

Lemma uses_llama_returns (o : op) : uses_llama o -> generation_returns o.
Proof.
  destruct o as [e t|e| | | |opens|in_data|td| |]; cbn; try tauto.
  - intros (c & msgs & e0 & ->) txt. apply engines_over_returns.
  - intros (c & msgs & e0 & ->) txt. apply engines_over_returns.
Qed.

(** X22: [LlamaChat.chat] catches every exception of the model and returns an
    apology instead.  So with a [LlamaChat] behind it, a turn whose
    generation failed still gets an assistant entry, the apology, and the
    transcript stays paired through every sequence of operations. *)
Theorem llama_failure_is_a_reply (completion : list message -> outcome string)
    (messages : list message) (e : engines) (t msg : string) (m : ChatManager)
    (ops : list op) :
  truthy t = true ->
  completion (messages ++ [Message "user" t]) = Raised msg ->
  Forall uses_llama ops ->
  paired m ->
  chat_history (state (snd (process_voice_input
                              (engines_over completion messages e) t m))) =
    chat_history (state m) ++ [user_turn t; assistant_turn apology] /\
  paired (run ops m).
Proof.
  intros Ht Hc Hops Hp. split.
  - destruct (process_voice_input_effect (engines_over completion messages e) t m Ht)
      as (b & rest & ->).
    cbn [snd state chat_history set_processing set_chat_history engines_over llm_chat].
    unfold chat. rewrite Hc. reflexivity.
  - clear Ht Hc. revert m Hp. induction Hops as [|o ops Ho _ IH]; intros m Hp.
    + exact Hp.
    + cbn [run fold_left]. apply IH. apply run_op_paired; [|exact Hp].
      apply uses_llama_returns. exact Ho.
Qed.

Lemma llama_failure_is_a_reply_witness :
  let e := engines_over (fun _ => Raised "out of memory") (init "Be brief.")
             (answering "unused") in
  chat_history (state (snd (process_voice_input e "hello" fresh))) =
    chat_history (state fresh) ++ [user_turn "hello"; assistant_turn apology] /\
  paired (run [Submit e "hello"; Redo e] fresh).
Proof.
  intros e.
  apply (llama_failure_is_a_reply (fun _ => Raised "out of memory") (init "Be brief.")
           (answering "unused") "hello" "out of memory" fresh [Submit e "hello"; Redo e]).
  - reflexivity.
  - reflexivity.
  - repeat constructor; cbn; eexists _, _, _; reflexivity.
  - exists 0%nat. reflexivity.
Defined.

End LlamaStage.

(** * Configuration *)
Section Configuration.
Import Config.

Lemma init_pairs_all (pairs : list (string * string)) (n : Z) :
  Forall (fun names => is_Some (color_map !! fst names) /\
                       is_Some (color_map !! snd names)) pairs ->
  snd (init_pairs n pairs) = None /\
  length (fst (init_pairs n pairs)) = length pairs /\
  map (fun call => fst (fst call)) (fst (init_pairs n pairs)) =
    map (fun k => n + Z.of_nat k) (seq 0 (length pairs)).
Proof.
  intros H. revert n. induction H as [|names pairs [[fg Hf] [bg Hb]] _ IH]; intros n.
  - repeat split.
  - cbn [init_pairs]. unfold init_pair, color_of. rewrite Hf, Hb.
    destruct (IH (n + 1)) as (He & Hl & Hn).
    destruct (init_pairs (n + 1) pairs) as [calls err]. cbn [fst snd] in *.
    split; [exact He|]. split; [cbn; rewrite Hl; reflexivity|].
    cbn [map length seq fst]. rewrite Hn, <- seq_shift, map_map. f_equal.
    + cbn. lia.
    + apply map_ext. intros k. lia.
Qed.

Lemma init_pairs_stops (pairs : list (string * string)) (n : Z) :
  Exists (fun names => color_map !! fst names = None \/
                       color_map !! snd names = None) pairs ->
  snd (init_pairs n pairs) <> None /\
  (length (fst (init_pairs n pairs)) < length pairs)%nat.
Proof.
  intros H. revert n. induction pairs as [|names pairs IH]; intros n.
  - inversion H.
  - cbn [init_pairs]. unfold init_pair, color_of.
    destruct (color_map !! fst names) as [fg|] eqn:Hf;
      [destruct (color_map !! snd names) as [bg|] eqn:Hb|].
    + inversion H as [? ? [H0|H0]|? ? H0]; subst; [congruence|congruence|].
      destruct (IH H0 (n + 1)) as [He Hl].
      destruct (init_pairs (n + 1) pairs) as [calls err]. cbn [fst snd] in *.
      split; [exact He|]. cbn. lia.
    + cbn. split; [discriminate|lia].
    + cbn. split; [discriminate|lia].
Qed.

Lemma get_color_pair_known (color_dict : gmap string string) :
  (forall key name, color_dict !! key = Some name -> is_Some (color_map !! name)) ->
  is_Some (color_map !! fst (_get_color_pair color_dict)) /\
  is_Some (color_map !! snd (_get_color_pair color_dict)).
Proof.
  intros H. unfold _get_color_pair. cbn [fst snd]. split.
  - destruct (color_dict !! "foreground") as [name|] eqn:E; cbn [default].
    + exact (H _ _ E).
    + vm_compute. eexists. reflexivity.
  - destruct (color_dict !! "background") as [name|] eqn:E; cbn [default].
    + exact (H _ _ E).
    + vm_compute. eexists. reflexivity.
Qed.

(** X23: Colours from the configuration file.  When every name the file gives
    is one of the nine of [color_map], [init_colors] makes its five
    [init_pair] calls, numbered 1 to 5, whichever entries are missing (they
    default to WHITE on DEFAULT). *)
Theorem init_colors_from_config (colors : gmap string (gmap string string)) :
  (forall section color_dict key name,
     colors !! section = Some color_dict ->
     color_dict !! key = Some name ->
     is_Some (color_map !! name)) ->
  snd (init_colors (load_colors colors)) = None /\
  map (fun call => fst (fst call)) (fst (init_colors (load_colors colors))) =
    [1; 2; 3; 4; 5].
Proof.
  intros H. unfold init_colors.
  assert (Hpair : forall section,
    is_Some (color_map !! fst (_get_color_pair (default ∅ (colors !! section)))) /\
    is_Some (color_map !! snd (_get_color_pair (default ∅ (colors !! section))))).
  { intros section. apply get_color_pair_known. intros key name Hk.
    destruct (colors !! section) as [d|] eqn:E; cbn [default] in Hk.
    - exact (H _ _ _ _ E Hk).
    - rewrite lookup_empty in Hk. discriminate. }
  match goal with |- context [init_pairs 1 ?l] =>
    destruct (init_pairs_all l 1) as (He & _ & Hn) end.
  { unfold load_colors. cbn [menu_selected recording_status ready_status user_message
      assistant_message]. repeat constructor; apply Hpair. }
  split; [exact He|]. rewrite Hn. reflexivity.
Qed.

Lemma init_colors_from_config_witness :
  snd (init_colors (load_colors
         (<["user_message" := <["foreground" := "CYAN"]> ∅]> ∅))) = None.
Proof.
  apply (init_colors_from_config (<["user_message" := <["foreground" := "CYAN"]> ∅]> ∅)).
  intros section color_dict key name Hs Hk.
  destruct (decide (section = "user_message")) as [->|Hne].
  - rewrite lookup_insert in Hs. injection Hs as <-.
    destruct (decide (key = "foreground")) as [->|Hk'].
    + rewrite lookup_insert in Hk. injection Hk as <-. vm_compute. eexists. reflexivity.
    + rewrite lookup_insert_ne in Hk by congruence. rewrite lookup_empty in Hk.
      discriminate.
  - rewrite lookup_insert_ne in Hs by congruence. rewrite lookup_empty in Hs.
    discriminate.
Defined.

(** X24: A colour name that is not one of the nine, for example one in lower
    case, ends [init_colors] with [KeyError] before all five pairs are
    initialised. *)
Theorem init_colors_unknown_name (c : ColorConfig) :
  Exists (fun names => color_map !! fst names = None \/ color_map !! snd names = None)
    [menu_selected c; recording_status c; ready_status c; user_message c;
     assistant_message c] ->
  snd (init_colors c) <> None /\ (length (fst (init_colors c)) < 5)%nat.
Proof.
  intros H. unfold init_colors. apply (init_pairs_stops _ 1 H).
Qed.

Lemma init_colors_unknown_name_witness :
  let c := mkColorConfig ("BLACK", "WHITE") ("red", "DEFAULT") ("GREEN", "DEFAULT")
             ("CYAN", "DEFAULT") ("YELLOW", "DEFAULT") in
  snd (init_colors c) <> None /\ (length (fst (init_colors c)) < 5)%nat.
Proof.
  intros c. apply (init_colors_unknown_name c).
  apply Exists_cons_tl. apply Exists_cons_hd. left. vm_compute. reflexivity.
Defined.

Lemma missing_paths_none (exists_ : string -> bool) (l : list string) :
  filter (fun path => exists_ path = false) l = [] <->
  Forall (fun path => exists_ path = true) l.
Proof.
  induction l as [|path l IH].
  - split; [constructor|reflexivity].
  - destruct (exists_ path) eqn:E.
    + rewrite filter_cons_False by (rewrite E; discriminate).
      rewrite IH. split.
      * intros H. constructor; assumption.
      * intros H. inversion H. assumption.
    + rewrite filter_cons_True by exact E. split; [discriminate|].
      intros H. inversion H. congruence.
Qed.

(** X25: [validate_paths] returns [True] exactly when the five paths exist; it
    never returns [False]: a missing path raises [ConfigError]. *)
Theorem validate_paths_all_or_error (exists_ : string -> bool) (p : paths) :
  validate_paths exists_ p <> Returned false /\
  (validate_paths exists_ p = Returned true <->
   exists_ (llm_model_path p) = true /\ exists_ (tts_model_path p) = true /\
   exists_ (tts_voices_path p) = true /\ exists_ (tts_voices_bin_path p) = true /\
   exists_ (system_prompt_path p) = true).
Proof.
  unfold validate_paths. cbv zeta.
  set (l := [llm_model_path p; tts_model_path p; tts_voices_path p;
             tts_voices_bin_path p; system_prompt_path p]).
  pose proof (missing_paths_none exists_ l) as Hall.
  destruct (filter (fun path => exists_ path = false) l) as [|path missing].
  - rewrite bool_decide_eq_false_2 by (intros H; apply H; reflexivity).
    split; [discriminate|]. split; [intros _|reflexivity].
    destruct Hall as [Hall _]. specialize (Hall eq_refl). subst l.
    rewrite !Forall_cons in Hall. tauto.
  - rewrite bool_decide_eq_true_2 by discriminate.
    split; [discriminate|]. split; [discriminate|].
    intros (H1 & H2 & H3 & H4 & H5). exfalso.
    destruct Hall as [_ Hall]. discriminate Hall. subst l. repeat constructor; assumption.
Qed.

End Configuration.

(** * Passive capture: onset and duration *)
Section PassiveOnset.
Import Whisper.

Lemma silence_after_below (reset : bool) (run : nat) :
  (run < windows_required)%nat ->
  PrimFloat.leb silence_duration_required (silence_after reset run) = false.
Proof.
  unfold windows_required. intros H.
  do 6 (destruct run as [|run]; [destruct reset; reflexivity|]). lia.
Qed.

Lemma await_silence_min (ps : list poll) (reset : bool) (run n : nat) :
  (run < windows_required)%nat ->
  await_silence (silence_after reset run) ps = Some n ->
  (windows_required <= n + run)%nat /\ (n <= length ps)%nat.
Proof.
  revert reset run n. induction ps as [|p ps IH]; intros reset run n Hr; [discriminate|].
  cbn [await_silence]. unfold silence_step.
  destruct (window_full p).
  - destruct (PrimFloat.ltb (rms p) silence_threshold).
    + change (PrimFloat.add (silence_after reset run) check_interval)
        with (silence_after reset (S run)).
      rewrite silence_after_threshold by exact Hr.
      destruct (Nat.leb_spec windows_required (S run)) as [Hge|Hlt].
      * intros [= <-]. cbn [length]. lia.
      * destruct (await_silence (silence_after reset (S run)) ps) as [n'|] eqn:E;
          [|discriminate].
        intros [= <-]. destruct (IH reset (S run) n' Hlt E). cbn [length]. lia.
    + change (0.3%float) with (silence_after true 0).
      rewrite silence_after_below by (unfold windows_required; lia).
      destruct (await_silence (silence_after true 0) ps) as [n'|] eqn:E; [|discriminate].
      intros [= <-].
      destruct (IH true 0%nat n' ltac:(unfold windows_required; lia) E).
      cbn [length]. lia.
  - rewrite silence_after_below by exact Hr.
    destruct (await_silence (silence_after reset run) ps) as [n'|] eqn:E; [|discriminate].
    intros [= <-]. destruct (IH reset run n' Hr E). cbn [length]. lia.
Qed.

Lemma await_onset_shorter (ps rest : list poll) :
  await_onset ps = Some rest -> (length rest < length ps)%nat.
Proof.
  revert rest. induction ps as [|p ps IH]; intros rest; [discriminate|].
  cbn [await_onset length].
  destruct (window_full p && PrimFloat.ltb silence_threshold (rms p)).
  - intros [= <-]. lia.
  - intros H. specialize (IH _ H). lia.
Qed.

Lemma await_onset_quiet (ps : list poll) :
  Forall (fun q => loud q = false) ps -> await_onset ps = None.
Proof.
  induction 1 as [|p ps Hp _ IH]; [reflexivity|].
  cbn [await_onset]. fold (loud p). rewrite Hp. exact IH.
Qed.

(** X26: The first loop ends at the first wake-up that finds a full window
    above the threshold, and only there: wake-ups that are quiet, exactly at
    the threshold, or too early for a full window never start a capture, and
    nothing is transcribed. *)
Theorem await_onset_first_loud (ps rest : list poll) :
  (await_onset ps = Some rest <->
   exists before p,
     ps = before ++ p :: rest /\ loud p = true /\
     Forall (fun q => loud q = false) before) /\
  (Forall (fun q => loud q = false) ps -> passive_capture ps = None).
Proof.
  split.
  - revert rest. induction ps as [|p ps IH]; intros rest.
    + split; [discriminate|]. intros (before & p & H & _). destruct before; discriminate.
    + cbn [await_onset]. fold (loud p). destruct (loud p) eqn:Hp.
      * split.
        -- intros [= <-]. exists [], p. repeat split; [exact Hp|constructor].
        -- intros (before & q & H & Hq & Hb). destruct before as [|b before].
           ++ injection H as <- <-. reflexivity.
           ++ injection H as <- _. inversion Hb; congruence.
      * rewrite IH. split.
        -- intros (before & q & -> & Hq & Hb). exists (p :: before), q.
           repeat split; [exact Hq|]. constructor; assumption.
        -- intros (before & q & H & Hq & Hb). destruct before as [|b before].
           ++ injection H as <- <-. congruence.
           ++ injection H as <- ->. exists before, q. repeat split; [exact Hq|].
              inversion Hb; assumption.
  - intros H. unfold passive_capture. rewrite (await_onset_quiet ps H). reflexivity.
Qed.

(** X27: Once speech was detected, the capture goes on for at least six more
    wake-ups, three seconds, before the buffer is handed to transcription. *)
Theorem passive_capture_lasts (ps : list poll) (n : nat) :
  passive_capture ps = Some n ->
  (windows_required <= n)%nat /\ (n < length ps)%nat.
Proof.
  unfold passive_capture.
  destruct (await_onset ps) as [rest|] eqn:Eo; [|discriminate].
  intros H. change 0%float with (silence_after false 0) in H.
  destruct (await_silence_min rest false 0 n ltac:(unfold windows_required; lia) H)
    as [Hmin Hlen].
  pose proof (await_onset_shorter ps rest Eo). lia.
Qed.

Lemma passive_capture_lasts_witness :
  (windows_required <= 6)%nat /\
  (6 < length (Poll 8000 0.5%float :: repeat (Poll 9000 0.001%float) 6))%nat.
Proof.
  apply (passive_capture_lasts
           (Poll 8000 0.5%float :: repeat (Poll 9000 0.001%float) 6) 6).
  reflexivity.
Defined.

End PassiveOnset.

(** * The session as [start_chat] runs it

    The generation stage [ChatManager] holds is a [LlamaChat]
    ([initialize_models], the only assignment of [self.llm]), and
    [start_chat] calls no method of the manager before [initialize_models]
    has returned [True].  The states of the session are those reached from
    [ChatManager.__init__] by operations whose generation stage is a
    [LlamaChat]. *)
Section Reachable.
Import Whisper.



Lemma well_formed_same (st st' : ChatState) :
  chat_history st' = chat_history st ->
  last_user_message st' = last_user_message st ->
  well_formed st -> well_formed st'.
Proof.
  intros Hh Hl [H|(earlier & t & a & He & H & Ht)].
  - left. congruence.
  - right. exists earlier, t, a. repeat split; congruence.
Qed.




Lemma run_paired_llama (ops : list op) (m : ChatManager) :
  Forall uses_llama ops -> paired m -> paired (run ops m).
Proof.
  intros Hall. revert m. induction Hall as [|o ops Ho _ IH]; intros m H; cbn [run fold_left].
  - exact H.
  - apply IH. apply run_op_paired; [apply uses_llama_returns; exact Ho | exact H].
Qed.



(** C4: in every state of the session the transcript holds an even number
    of turns; inside a submission, between the user turn and the reply, the
    number is odd, and it is even again when the submission returns. *)
Theorem transcript_even_between_operations (selected_settings : gmap string pyval)
    (ops : list op) :
  Forall uses_llama ops ->
  let m := run ops (listen (init selected_settings)) in
  paired m /\
  (forall e t, uses_llama (Submit e t) -> truthy t = true ->
     ~ paired (snd (accept_turn t m)) /\
     paired (snd (process_voice_input e t m))).
Proof.
  intros Hops m.
  assert (Hm : paired m).
  { apply run_paired_llama; [exact Hops|]. exists 0%nat. reflexivity. }
  split; [exact Hm|]. intros e t He Ht. split.
  - rewrite accept_turn_effect. unfold paired in *. cbn [snd state chat_history
      set_processing set_chat_history set_last_user_message].
    rewrite length_app. cbn [length]. destruct Hm as [k Hk]. intros [j Hj]. lia.
  - apply process_voice_input_paired; [|exact Hm].
    exact (uses_llama_returns (Submit e t) He).
Qed.

Lemma transcript_even_between_operations_witness :
  let e := Llama.engines_over (fun _ => Raised "out of memory") (Llama.init "Be brief.")
             (answering "unused") in
  let m := run [Submit e "a"; ScrollUp; Redo e; StartCapture true;
                StopCapture StopRaises] (listen (init ∅)) in
  paired m /\
  ~ paired (snd (accept_turn "c" m)) /\
  paired (snd (process_voice_input e "c" m)).
Proof.
  intros e m.
  destruct (transcript_even_between_operations ∅
              [Submit e "a"; ScrollUp; Redo e; StartCapture true; StopCapture StopRaises])
    as [Hm Hsub].
  - repeat (apply List.Forall_cons; [first [exact I | (cbn; eexists _, _, _; reflexivity)]|]);
    apply List.Forall_nil.
  - split; [exact Hm|]. apply (Hsub e "c"); [|reflexivity].
    cbn. eexists _, _, _. reflexivity.
Defined.

(** C5 (as amended): in every state of the session, that is after every
    operation and scroll event, [scroll_offset] lies in
    [[0, 2 * len(chat_history)]], and every operation and scroll event keeps
    it there from its call to its return. *)
Theorem scroll_offset_in_range (selected_settings : gmap string pyval)
    (ops : list op) :
  Forall uses_llama ops ->
  scroll_in_range (state (run ops (listen (init selected_settings)))) /\
  (forall m o, uses_llama o -> scroll_in_range (state m) ->
     scroll_in_range (state (run_op m o))).
Proof.
  intros Hops. split.
  - assert (Hgen : forall m, scroll_in_range (state m) ->
                     scroll_in_range (state (run ops m))).
    { induction Hops as [|o ops Ho _ IH]; intros m H; cbn [run fold_left].
      - exact H.
      - apply IH. apply run_op_scroll; [apply uses_llama_returns; exact Ho | exact H]. }
    apply Hgen. unfold scroll_in_range. cbn. lia.
  - intros m o Ho H. apply run_op_scroll; [apply uses_llama_returns; exact Ho | exact H].
Qed.

Lemma scroll_offset_in_range_witness :
  let e := Llama.engines_over (fun _ => Returned "yo") (Llama.init "Be brief.")
             (answering "yo") in
  scroll_in_range
    (state (run [Submit e "hi"; ScrollUp; ScrollUp; ScrollUp; ScrollUp; ScrollUp;
                 Redo e; ScrollDown] (listen (init ∅)))).
Proof.
  intros e.
  destruct (scroll_offset_in_range ∅
              [Submit e "hi"; ScrollUp; ScrollUp; ScrollUp; ScrollUp; ScrollUp;
               Redo e; ScrollDown]) as [Hrange _].
  - repeat (apply List.Forall_cons;
            [first [exact I | (cbn; eexists _, _, _; reflexivity)]|]);
      apply List.Forall_nil.
  - exact Hrange.
Defined.

(** Inside [redo_last_message] the bound does not hold: the transcript is
    shortened before the resubmission appends to it and [scroll_offset] is
    left as it is, so the listener is called in a state with an empty
    transcript and an offset of 4.  When the method returns the bound holds
    again. *)
Lemma redo_shows_offset_beyond_transcript :
  let e := Llama.engines_over (fun _ => Returned "yo") (Llama.init "Be brief.")
             (answering "yo") in
  let m := run [Submit e "hi"; ScrollUp; ScrollUp; ScrollUp; ScrollUp]
             (listen (init ∅)) in
  chat_history (state m) = [user_turn "hi"; assistant_turn "yo"] /\
  scroll_offset (state m) = 4 /\
  head (events_of (redo_last_message e) m) = Some (ChatShown [] 4) /\
  ~ (0 <= 4 <= 2 * Z.of_nat (length (@nil string))) /\
  scroll_in_range (state (snd (redo_last_message e m))).
Proof.
  cbv zeta.
  set (e := Llama.engines_over (fun _ => Returned "yo") (Llama.init "Be brief.")
              (answering "yo")).
  set (m := run [Submit e "hi"; ScrollUp; ScrollUp; ScrollUp; ScrollUp]
              (listen (init ∅))).
  assert (Hh : chat_history (state m) = [user_turn "hi"; assistant_turn "yo"])
    by (vm_compute; reflexivity).
  assert (Hs : scroll_offset (state m) = 4) by (vm_compute; reflexivity).
  assert (He : head (events_of (redo_last_message e) m) = Some (ChatShown [] 4))
    by (vm_compute; reflexivity).
  assert (Hh' : chat_history (state (snd (redo_last_message e m))) =
                [user_turn "hi"; assistant_turn "yo"]) by (vm_compute; reflexivity).
  assert (Hs' : scroll_offset (state (snd (redo_last_message e m))) = 4)
    by (vm_compute; reflexivity).
  unfold scroll_in_range. rewrite Hh', Hs'.
  split; [exact Hh|]. split; [exact Hs|]. split; [exact He|].
  split; cbn [length]; lia.
Qed.

(** C8, at the input where the code departs from it: [stream.stop_stream()]
    raises during [stop_recording].  The handle is cleared while the stream
    stays open, so the handle is absent with one capture open; the next
    [start_recording] is not refused and opens a second stream. *)
Theorem start_recording_after_failed_teardown :
  let m := run [StartCapture true; StopCapture StopRaises] (listen (init ∅)) in
  recording_stream (state m) = None /\
  recording_frames (state m) = None /\
  recording_pyaudio (state m) = None /\
  processing (state m) = false /\
  streams_open (audio m) = 1%nat /\
  fst (start_recording true m) = Returned true /\
  streams_open (audio (snd (start_recording true m))) = 2%nat.
Proof.
  cbv zeta. repeat split.
Qed.

End Reachable.
